(** * TerminalChatController: the request/response lifecycle of the terminal
      inline chat

    Shallow embedding of
    [src/vs/workbench/contrib/terminalContrib/chat/browser/terminalChatController.ts].

    The controller is a class with mutable fields that talks to a handful of
    injected services.  The fields and the state of the services it touches
    are one explicit [World]; every call it makes on a collaborator is
    appended to a [trace].  A method is a function in a small state-and-error
    monad over [World]: a JavaScript exception is the [Throw] result, and the
    world reached when it was raised is kept. *)

From Stdlib Require Import String Ascii List NArith ZArith Bool Arith Lia.
Import ListNotations.
Open Scope string_scope.

Set Implicit Arguments.

(** ** JavaScript string primitives used by the controller

    A string is a Rocq [string]; the controller compares and strips ASCII
    text only (the kind tags, the fence marker), for which the characters of
    the encoding do not matter. *)

Module JS.

(** [s.startsWith(p)]. *)
Fixpoint startsWith (p s : string) : bool :=
  match p, s with
  | EmptyString, _ => true
  | String a p', String b s' => Ascii.eqb a b && startsWith p' s'
  | String _ _, EmptyString => false
  end.

(** The scan of [String.prototype.replaceAll] for a non-empty pattern:
    left to right, a match is replaced and the scan resumes after it, so
    matches never overlap.  [skip] counts the characters of the current
    match that are still to be dropped. *)
Fixpoint replaceAll_from (skip : nat) (pat rep s : string) : string :=
  match s with
  | EmptyString => EmptyString
  | String c s' =>
      match skip with
      | S k => replaceAll_from k pat rep s'
      | O =>
          if startsWith pat s
          then rep ++ replaceAll_from (String.length pat - 1) pat rep s'
          else String c (replaceAll_from 0 pat rep s')
      end
  end.

(** [s.replaceAll(pat, rep)], for a non-empty string pattern [pat]. *)
Definition replaceAll (pat rep s : string) : string :=
  replaceAll_from 0 pat rep s.

(** [s.includes(p)]. *)
Fixpoint includes (p s : string) : bool :=
  startsWith p s ||
  match s with
  | EmptyString => false
  | String _ s' => includes p s'
  end.

(** Truthiness of a value of type [string | undefined]: [undefined] and
    the empty string are falsy. *)
Definition truthy (v : option string) : bool :=
  match v with
  | Some (String _ _) => true
  | _ => false
  end.

(** [v || d] for [v : string | undefined]. *)
Definition or_else (v : option string) (d : string) : string :=
  if truthy v then match v with Some s => s | None => d end else d.

End JS.

(** The fence marker that [acceptInput] strips. *)
Definition fence : string := "```".

(** ** Data model *)

(** [IDimension] of [vs/base/browser/dom]. *)
Record IDimension := { width : Z; height : Z }.

(** A value of [generateUuid()].  The generator is random; what the
    controller relies on is that each call gives a new value, so the model
    numbers them. *)
Inductive Uuid := uuid (n : nat).

(** Modelled from the spec: [IChatProgress] of [chatService.ts], which is not
    among the sources.  A progress chunk is a tagged union; the controller
    reads its [kind] tag and, for the two text-bearing kinds, its [content]. *)
Record IChatProgress := { kind : string; content : string }.

(** [IChatAgentRequest] as [acceptInput] builds it; [variables] and
    [variables2.variables] are always empty there. *)
Record IChatAgentRequest := {
  sessionId : Uuid;
  requestId : Uuid;
  agentId : string;
  message : string;
  variables : list (string * list string);
  variables2_message : string;
  variables2_variables : list string
}.

(** Modelled from the spec: [InlineChatResponseTypes] of [inlineChat.ts],
    which is not among the sources; the controller only ever writes
    [OnlyMessages]. *)
Inductive InlineChatResponseTypes := Empty | OnlyEdits | OnlyMessages | Mixed.

(** The three context keys the controller binds. *)
Inductive RawContextKey :=
| chatRequestActive              (* TerminalContextKeys.chatRequestActive *)
| chatAgentRegistered            (* TerminalContextKeys.chatAgentRegistered *)
| CTX_INLINE_CHAT_RESPONSE_TYPES.

(** The values held by the context key service; [None] is a key that was
    never set. *)
Record ContextKeyService := {
  requestActive : option bool;
  agentRegistered : option bool;
  lastResponseType : option InlineChatResponseTypes
}.

(** Modelled from the spec: [CancellationTokenSource] of
    [vs/base/common/cancellation], which is not among the sources: "a single
    shared flag plus a derived is-cancelled token".  The token handed out by
    [source.token] is the same object for the life of the source, so reading
    [token.isCancellationRequested] later is reading the flag of the source;
    [tokenId] is the identity of that object. *)
Record CancellationTokenSource := {
  tokenId : nat;
  isCancellationRequested : bool
}.

(** The part of [TerminalChatWidget] the controller can observe: the text of
    its input box. *)
Record TerminalChatWidget := { inputValue : string }.

(** Modelled from the spec: [Lazy] of [vs/base/common/lazy], which is not
    among the sources: "a nullable owned instance plus a builder function
    invoked at most once".  [rawValue] is the instance if the builder has run
    and returned, and never runs the builder. *)
Record Lazy (A : Type) := { didRun : bool; rawValue : option A }.

(** Calls on the widget (the presentation sink). *)
Module Widget.
Inductive Call :=
| input
| setValue
| updateProgress (progress : option IChatProgress)
| renderTerminalCommand (command : string) (accessibilityRequestId : N)
| renderMessage (message : string) (accessibilityRequestId : N) (requestId : Uuid)
| layout (width : Z)
| acceptCommand
| reveal
| dispose.
End Widget.

(** Everything the controller does to a collaborator. *)
Inductive Event :=
| acceptRequest                                      (* _chatAccessibilityService *)
| ctxSetBool (key : RawContextKey) (value : bool)    (* IContextKey.set *)
| ctxSetResponseType (value : InlineChatResponseTypes)
| onDidChangeAgents                                  (* listener registered *)
| createInstance                                     (* _instantiationService *)
| setActiveInstance                                  (* _terminalService *)
| resetScrollbarVisibility                           (* _instance *)
| invokeAgent (agentId : string) (request : IChatAgentRequest)
              (token : CancellationTokenSource)      (* _chatAgentService *)
| widget (call : Widget.Call).

(** The fields of the class.  The four fields declared with [!] have no
    initialiser: they are [None] until the constructor assigns them. *)
Record TerminalChatController := {
  _chatWidget : option (Lazy TerminalChatWidget);
  _lastLayoutDimensions : option IDimension;
  _accessibilityRequestId : N;   (* a number that only counts up from 0 *)
  _ctxHasActiveRequest : option RawContextKey;
  _ctxHasTerminalAgent : option RawContextKey;
  _ctxLastResponseType : option RawContextKey;
  _cancellationTokenSource : option CancellationTokenSource
}.

(** What the collaborators hold. *)
Record Host := {
  ExperimentalInlineChat : bool;  (* _configurationService.getValue(...) *)
  terminalAgent : bool;           (* the chat agent service knows 'terminal' *)
  agentsListener : bool;          (* the onDidChangeAgents listener is on *)
  domElement : bool;              (* _instance.domElement is there *)
  detached : bool;                (* isDetachedTerminalInstance(_instance) *)
  activeChatWidget : bool;        (* static activeChatWidget === this *)
  contextKeys : ContextKeyService;
  uuids : nat;                    (* uuids handed out so far *)
  tokens : nat                    (* cancellation tokens created so far *)
}.

Record World := {
  this : TerminalChatController;
  host : Host;
  trace : list Event
}.

(** ** The state-and-error monad *)

Inductive Error :=
| TypeError (what : string)   (* a member access on [undefined] *)
| Err (message : string).     (* [new Error(message)] *)

Inductive Result (A : Type) :=
| Ok (a : A)
| Throw (e : Error).
Arguments Throw {A} e.

Definition M (A : Type) : Type := World -> Result A * World.

Definition ret {A} (a : A) : M A := fun w => (Ok a, w).
Definition throw {A} (e : Error) : M A := fun w => (Throw e, w).
Definition bind {A B} (m : M A) (k : A -> M B) : M B :=
  fun w =>
    match m w with
    | (Ok a, w') => k a w'
    | (Throw e, w') => (Throw e, w')
    end.

Declare Scope js_scope.
Delimit Scope js_scope with js.
Notation "x <- m ;; k" := (bind m (fun x => k))
  (at level 61, m at next level, right associativity) : js_scope.
Notation "m ;; k" := (bind m (fun _ => k))
  (at level 61, right associativity) : js_scope.
Open Scope js_scope.

Definition gets {A} (f : World -> A) : M A := fun w => (Ok (f w), w).
Definition modify (f : World -> World) : M unit := fun w => (Ok tt, f w).

(** Field updates. *)
Definition set_this (f : TerminalChatController -> TerminalChatController)
  (w : World) : World :=
  {| this := f (this w); host := host w; trace := trace w |}.
Definition set_host (f : Host -> Host) (w : World) : World :=
  {| this := this w; host := f (host w); trace := trace w |}.
Definition emit (e : Event) (w : World) : World :=
  {| this := this w; host := host w; trace := trace w ++ [e] |}.

Definition with_chatWidget v (c : TerminalChatController) :=
  {| _chatWidget := v;
     _lastLayoutDimensions := _lastLayoutDimensions c;
     _accessibilityRequestId := _accessibilityRequestId c;
     _ctxHasActiveRequest := _ctxHasActiveRequest c;
     _ctxHasTerminalAgent := _ctxHasTerminalAgent c;
     _ctxLastResponseType := _ctxLastResponseType c;
     _cancellationTokenSource := _cancellationTokenSource c |}.
Definition with_lastLayoutDimensions v (c : TerminalChatController) :=
  {| _chatWidget := _chatWidget c;
     _lastLayoutDimensions := v;
     _accessibilityRequestId := _accessibilityRequestId c;
     _ctxHasActiveRequest := _ctxHasActiveRequest c;
     _ctxHasTerminalAgent := _ctxHasTerminalAgent c;
     _ctxLastResponseType := _ctxLastResponseType c;
     _cancellationTokenSource := _cancellationTokenSource c |}.
Definition with_accessibilityRequestId v (c : TerminalChatController) :=
  {| _chatWidget := _chatWidget c;
     _lastLayoutDimensions := _lastLayoutDimensions c;
     _accessibilityRequestId := v;
     _ctxHasActiveRequest := _ctxHasActiveRequest c;
     _ctxHasTerminalAgent := _ctxHasTerminalAgent c;
     _ctxLastResponseType := _ctxLastResponseType c;
     _cancellationTokenSource := _cancellationTokenSource c |}.
Definition with_ctxKeys a b r (c : TerminalChatController) :=
  {| _chatWidget := _chatWidget c;
     _lastLayoutDimensions := _lastLayoutDimensions c;
     _accessibilityRequestId := _accessibilityRequestId c;
     _ctxHasActiveRequest := a;
     _ctxHasTerminalAgent := b;
     _ctxLastResponseType := r;
     _cancellationTokenSource := _cancellationTokenSource c |}.
Definition with_cancellationTokenSource v (c : TerminalChatController) :=
  {| _chatWidget := _chatWidget c;
     _lastLayoutDimensions := _lastLayoutDimensions c;
     _accessibilityRequestId := _accessibilityRequestId c;
     _ctxHasActiveRequest := _ctxHasActiveRequest c;
     _ctxHasTerminalAgent := _ctxHasTerminalAgent c;
     _ctxLastResponseType := _ctxLastResponseType c;
     _cancellationTokenSource := v |}.

Definition with_contextKeys v (h : Host) :=
  {| ExperimentalInlineChat := ExperimentalInlineChat h;
     terminalAgent := terminalAgent h;
     agentsListener := agentsListener h;
     domElement := domElement h;
     detached := detached h;
     activeChatWidget := activeChatWidget h;
     contextKeys := v;
     uuids := uuids h;
     tokens := tokens h |}.
Definition with_agentsListener v (h : Host) :=
  {| ExperimentalInlineChat := ExperimentalInlineChat h;
     terminalAgent := terminalAgent h;
     agentsListener := v;
     domElement := domElement h;
     detached := detached h;
     activeChatWidget := activeChatWidget h;
     contextKeys := contextKeys h;
     uuids := uuids h;
     tokens := tokens h |}.
Definition with_activeChatWidget v (h : Host) :=
  {| ExperimentalInlineChat := ExperimentalInlineChat h;
     terminalAgent := terminalAgent h;
     agentsListener := agentsListener h;
     domElement := domElement h;
     detached := detached h;
     activeChatWidget := v;
     contextKeys := contextKeys h;
     uuids := uuids h;
     tokens := tokens h |}.
Definition with_uuids v (h : Host) :=
  {| ExperimentalInlineChat := ExperimentalInlineChat h;
     terminalAgent := terminalAgent h;
     agentsListener := agentsListener h;
     domElement := domElement h;
     detached := detached h;
     activeChatWidget := activeChatWidget h;
     contextKeys := contextKeys h;
     uuids := v;
     tokens := tokens h |}.
Definition with_tokens v (h : Host) :=
  {| ExperimentalInlineChat := ExperimentalInlineChat h;
     terminalAgent := terminalAgent h;
     agentsListener := agentsListener h;
     domElement := domElement h;
     detached := detached h;
     activeChatWidget := activeChatWidget h;
     contextKeys := contextKeys h;
     uuids := uuids h;
     tokens := v |}.
Definition with_environment flag agent dom det (h : Host) :=
  {| ExperimentalInlineChat := flag;
     terminalAgent := agent;
     agentsListener := agentsListener h;
     domElement := dom;
     detached := det;
     activeChatWidget := activeChatWidget h;
     contextKeys := contextKeys h;
     uuids := uuids h;
     tokens := tokens h |}.

(** ** Collaborator access *)

(** [this._chatWidget?.rawValue]. *)
Definition rawWidget (w : World) : option TerminalChatWidget :=
  match _chatWidget (this w) with
  | Some l => rawValue l
  | None => None
  end.

(** [this._chatWidget?.rawValue?.m(...)] for a method [m] whose result is not
    used: the call is made when the widget has been instantiated and is
    dropped otherwise. *)
Definition widgetCall (c : Widget.Call) : M unit :=
  fun w =>
    match rawWidget w with
    | Some _ => (Ok tt, emit (widget c) w)
    | None => (Ok tt, w)
    end.

(** [this._chatWidget?.rawValue?.input()]. *)
Definition widgetInput : M (option string) :=
  fun w =>
    match rawWidget w with
    | Some wd => (Ok (Some (inputValue wd)), emit (widget Widget.input) w)
    | None => (Ok None, w)
    end.

Definition clearInput (l : Lazy TerminalChatWidget) : Lazy TerminalChatWidget :=
  {| didRun := didRun l;
     rawValue := match rawValue l with
                 | Some _ => Some {| inputValue := "" |}
                 | None => None
                 end |}.

(** [this._chatWidget?.rawValue?.setValue()]: with no argument the widget
    empties its input box. *)
Definition widgetSetValue : M unit :=
  fun w =>
    match rawWidget w with
    | Some _ =>
        (Ok tt, emit (widget Widget.setValue)
                  (set_this (fun c => with_chatWidget
                                        (option_map clearInput (_chatWidget c)) c) w))
    | None => (Ok tt, w)
    end.

Definition storeBool (k : RawContextKey) (v : bool) (s : ContextKeyService) :=
  match k with
  | chatRequestActive =>
      {| requestActive := Some v; agentRegistered := agentRegistered s;
         lastResponseType := lastResponseType s |}
  | chatAgentRegistered =>
      {| requestActive := requestActive s; agentRegistered := Some v;
         lastResponseType := lastResponseType s |}
  | CTX_INLINE_CHAT_RESPONSE_TYPES => s
  end.

Definition storeResponseType (v : InlineChatResponseTypes) (s : ContextKeyService) :=
  {| requestActive := requestActive s; agentRegistered := agentRegistered s;
     lastResponseType := Some v |}.

(** [key.set(v)] on a field holding an [IContextKey<boolean>]; a field the
    constructor never assigned is [undefined] and the member access throws. *)
Definition ctxSet (field : TerminalChatController -> option RawContextKey)
  (name : string) (v : bool) : M unit :=
  fun w =>
    match field (this w) with
    | Some k =>
        (Ok tt, emit (ctxSetBool k v)
                  (set_host (fun h => with_contextKeys (storeBool k v (contextKeys h)) h) w))
    | None => (Throw (TypeError name), w)
    end.

(** [this._ctxLastResponseType.set(v)]. *)
Definition ctxSetLastResponseType (v : InlineChatResponseTypes) : M unit :=
  fun w =>
    match _ctxLastResponseType (this w) with
    | Some _ =>
        (Ok tt, emit (ctxSetResponseType v)
                  (set_host (fun h => with_contextKeys
                                        (storeResponseType v (contextKeys h)) h) w))
    | None => (Throw (TypeError "_ctxLastResponseType"), w)
    end.

(** [generateUuid()]. *)
Definition generateUuid : M Uuid :=
  fun w => (Ok (uuid (uuids (host w))),
            set_host (fun h => with_uuids (S (uuids h)) h) w).

(** [this._configurationService.getValue(TerminalSettingId.ExperimentalInlineChat)]. *)
Definition getValue_ExperimentalInlineChat : M bool :=
  gets (fun w => ExperimentalInlineChat (host w)).

(** ** The controller *)

(** The object before the constructor body runs: field initialisers only. *)
Definition blank : TerminalChatController :=
  {| _chatWidget := None;
     _lastLayoutDimensions := None;
     _accessibilityRequestId := 0%N;
     _ctxHasActiveRequest := None;
     _ctxHasTerminalAgent := None;
     _ctxLastResponseType := None;
     _cancellationTokenSource := None |}.

(** The body of the [onDidChangeAgents] listener (lines 70-74). *)
Definition agentsChanged : M unit :=
  has <- gets (fun w => terminalAgent (host w)) ;;
  if has then ctxSet _ctxHasTerminalAgent "_ctxHasTerminalAgent" true else ret tt.

(** [new CancellationTokenSource()]. *)
Definition newCancellationTokenSource : M CancellationTokenSource :=
  fun w => (Ok {| tokenId := tokens (host w); isCancellationRequested := false |},
            set_host (fun h => with_tokens (S (tokens h)) h) w).

(** The constructor body, lines 61-78. *)
Definition constructor : M unit :=
  flag <- getValue_ExperimentalInlineChat ;;
  if negb flag then ret tt
  else
    modify (set_this (with_ctxKeys (Some chatRequestActive)
                                   (Some chatAgentRegistered)
                                   (Some CTX_INLINE_CHAT_RESPONSE_TYPES))) ;;
    has <- gets (fun w => terminalAgent (host w)) ;;
    (if negb has
     then modify (fun w => emit onDidChangeAgents
                             (set_host (with_agentsListener true) w))
     else ctxSet _ctxHasTerminalAgent "_ctxHasTerminalAgent" true) ;;
    src <- newCancellationTokenSource ;;
    modify (set_this (with_cancellationTokenSource (Some src))).

(** [new TerminalChatController(...)] in a host [h]. *)
Definition create (h : Host) : World :=
  snd (constructor {| this := blank; host := h; trace := [] |}).

(** [layout(_xterm, dimension)], lines 81-87. *)
Definition layout (dimension : IDimension) : M unit :=
  flag <- getValue_ExperimentalInlineChat ;;
  if negb flag then ret tt
  else
    modify (set_this (with_lastLayoutDimensions (Some dimension))) ;;
    widgetCall (Widget.layout (width dimension)).

(** [xtermReady(xterm)], lines 89-115: installs a builder that has not run. *)
Definition xtermReady : M unit :=
  flag <- getValue_ExperimentalInlineChat ;;
  if negb flag then ret tt
  else
    modify (set_this (with_chatWidget (Some {| didRun := false; rawValue := None |}))).

Definition domError : Error := Err "FindWidget expected terminal DOM to be initialized".

(** The builder given to [Lazy] in [xtermReady], lines 94-113, run on the first
    read of [value]. *)
Definition buildWidget : M TerminalChatWidget :=
  modify (emit createInstance) ;;
  let chatWidget := {| inputValue := "" |} in
  dom <- gets (fun w => domElement (host w)) ;;
  if negb dom
  then
    modify (set_this (with_chatWidget (Some {| didRun := true; rawValue := None |}))) ;;
    throw domError
  else
    dims <- gets (fun w => _lastLayoutDimensions (this w)) ;;
    match dims with
    | Some d => modify (emit (widget (Widget.layout (width d))))
    | None => ret tt
    end ;;
    modify (set_this (with_chatWidget
                        (Some {| didRun := true; rawValue := Some chatWidget |}))) ;;
    ret chatWidget.

(** The getter [chatWidget], line 42: [this._chatWidget?.value]. *)
Definition chatWidget : M (option TerminalChatWidget) :=
  l <- gets (fun w => _chatWidget (this w)) ;;
  match l with
  | None => ret None
  | Some l =>
      if didRun l
      then match rawValue l with
           | Some v => ret (Some v)
           | None => throw domError
           end
      else v <- buildWidget ;; ret (Some v)
  end.

(** The focus tracker callbacks installed by the builder, lines 95-104. *)
Definition onDidFocus : M unit :=
  modify (set_host (with_activeChatWidget true)) ;;
  det <- gets (fun w => detached (host w)) ;;
  if negb det then modify (emit setActiveInstance) else ret tt.

Definition onDidBlur : M unit :=
  modify (set_host (with_activeChatWidget false)) ;;
  modify (emit resetScrollbarVisibility).

(** [cancel()], lines 117-119. *)
Definition cancel : M unit :=
  fun w =>
    match _cancellationTokenSource (this w) with
    | Some s =>
        (Ok tt, set_this (with_cancellationTokenSource
                            (Some {| tokenId := tokenId s;
                                     isCancellationRequested := true |})) w)
    | None => (Throw (TypeError "_cancellationTokenSource"), w)
    end.

(** [this._cancellationTokenSource.token], line 125. *)
Definition token : M CancellationTokenSource :=
  fun w =>
    match _cancellationTokenSource (this w) with
    | Some s => (Ok s, w)
    | None => (Throw (TypeError "_cancellationTokenSource"), w)
    end.

(** [cancellationToken.isCancellationRequested] for the token taken at line
    125: the flag of the source it came from, as it is now. *)
Definition cancellationRequested : M bool :=
  gets (fun w => match _cancellationTokenSource (this w) with
                 | Some s => isCancellationRequested s
                 | None => false
                 end).

(** [acceptCommand()], [reveal()] and [dispose()], lines 173-184.  Of
    [dispose] this is line 183; [super.dispose()] belongs to the base class
    [Disposable], which is not among the sources. *)
Definition acceptCommand : M unit := widgetCall Widget.acceptCommand.
Definition reveal : M unit := widgetCall Widget.reveal.
Definition dispose : M unit := widgetCall Widget.dispose.

(** The progress callback of [acceptInput], lines 127-136.  The local
    [message] it closes over is passed in and returned. *)
Definition progressCallback (message : string) (progress : IChatProgress) : M string :=
  c <- cancellationRequested ;;
  if c then ret message
  else
    let message :=
      if (kind progress =? "content") || (kind progress =? "markdownContent")
      then message ++ content progress
      else message in
    widgetCall (Widget.updateProgress (Some progress)) ;;
    ret message.

(** What happens while [invokeAgent] is pending: the agent reports progress,
    and the user may cancel.  It then settles.  A run holds nothing else: a
    second [acceptInput] while one is pending is left to the UI to prevent,
    and the widget is neither opened nor replaced in the middle of a
    request. *)
Inductive Pending :=
| onProgress (progress : IChatProgress)
| cancelCalled.

Inductive Settled := resolved | rejected.

Record AgentRun := { pending : list Pending; settled : Settled }.

(** The pending phase, from the empty buffer of line 122.  A [cancel()] that
    arrives here is another caller's call; after line 125 it cannot throw. *)
Fixpoint deliver (message : string) (evs : list Pending) : M string :=
  match evs with
  | [] => ret message
  | onProgress p :: evs => message <- progressCallback message p ;; deliver message evs
  | cancelCalled :: evs => modify (fun w => snd (cancel w)) ;; deliver message evs
  end.

(** A token of [marked.lexer]: its [type] tag and the [raw] source text. *)
Record Token := { type : string; raw : string }.

(** The branch of lines 162-168 that ran, with the text it passes to the
    render call. *)
Inductive Outcome :=
| Command (codeBlock : string)   (* line 164 *)
| Message (message : string).    (* lines 166-167 *)

(** The [return] (or the end of the body) at which [acceptInput] finished. *)
Inductive ReturnPoint :=
| inCatch                     (* line 155 *)
| atCancellationCheck         (* line 160 *)
| atEnd (outcome : Outcome).  (* line 171 *)

(** How a call of [acceptInput] went: where it returned, and the final value
    of its local [message]. *)
Record Completion := { returnedAt : ReturnPoint; buffer : string }.

Section Controller.

(** [marked.lexer] of the vendored markdown library, which is not among the
    sources: any function from text to top-level tokens. *)
Variable lexer : string -> list Token.

(** Line 157:
    [marked.lexer(message).filter(token => token.type === 'code')?.[0]?.raw.replaceAll('```', '')]. *)
Definition codeBlock (message : string) : option string :=
  match filter (fun t => type t =? "code") (lexer message) with
  | t :: _ => Some (JS.replaceAll fence "" (raw t))
  | [] => None
  end.

(** Lines 121-147, up to the call of [invokeAgent]. *)
Definition acceptInput_request : M Uuid :=
  modify (emit acceptRequest) ;;
  ctxSet _ctxHasActiveRequest "_ctxHasActiveRequest" true ;;
  cancellationToken <- token ;;
  let agentId := "terminal" in
  requestId <- generateUuid ;;
  sessionId <- generateUuid ;;
  input1 <- widgetInput ;;
  input2 <- widgetInput ;;
  let requestProps :=
    {| sessionId := sessionId;
       requestId := requestId;
       agentId := agentId;
       message := JS.or_else input1 "";
       variables := [];
       variables2_message := JS.or_else input2 "";
       variables2_variables := [] |} in
  widgetSetValue ;;
  modify (emit (invokeAgent agentId requestProps cancellationToken)) ;;
  ret requestId.

(** Lines 157-171, after [invokeAgent] resolved. *)
Definition acceptInput_respond (requestId : Uuid) (message : string) : M ReturnPoint :=
  let codeBlock := codeBlock message in
  modify (set_this (fun c => with_accessibilityRequestId
                               (_accessibilityRequestId c + 1)%N c)) ;;
  c <- cancellationRequested ;;
  if c then ret atCancellationCheck
  else
    id <- gets (fun w => _accessibilityRequestId (this w)) ;;
    outcome <- (if JS.truthy codeBlock
                then
                  let codeBlock := match codeBlock with Some s => s | None => "" end in
                  widgetCall (Widget.renderTerminalCommand codeBlock id) ;;
                  ret (Command codeBlock)
                else
                  widgetCall (Widget.renderMessage message id requestId) ;;
                  ctxSetLastResponseType OnlyMessages ;;
                  ret (Message message)) ;;
    ctxSet _ctxHasActiveRequest "_ctxHasActiveRequest" false ;;
    widgetCall (Widget.updateProgress None) ;;
    ret (atEnd outcome).

(** The [catch] block, lines 151-156. *)
Definition acceptInput_catch : M ReturnPoint :=
  ctxSet _ctxHasActiveRequest "_ctxHasActiveRequest" false ;;
  widgetCall (Widget.updateProgress None) ;;
  ret inCatch.

(** [acceptInput()], lines 121-171, against an agent that behaves as [run].
    [Ok] is a fulfilled promise, [Throw] a rejected one. *)
Definition acceptInput (run : AgentRun) : M Completion :=
  requestId <- acceptInput_request ;;
  message <- deliver "" (pending run) ;;
  at_ <- match settled run with
         | rejected => acceptInput_catch
         | resolved => acceptInput_respond requestId message
         end ;;
  ret {| returnedAt := at_; buffer := message |}.

End Controller.

(** ** The markdown lexer *)

(** [vs/base/common/marked], the vendored markdown library, is not among the
    sources.  This module is the lexer the spec describes: it knows one kind
    of block, the fenced code block. *)

Module Marked.

(** [s] without its first [n] characters. *)
Fixpoint drop (n : nat) (s : string) : string :=
  match n, s with
  | S n', String _ s' => drop n' s'
  | _, _ => s
  end.

(** The text before the first fence marker of [s] and the text after it. *)
Fixpoint splitAtFence (s : string) : option (string * string) :=
  match s with
  | EmptyString => None
  | String c s' =>
      if JS.startsWith fence s then Some (EmptyString, drop 3 s)
      else match splitAtFence s' with
           | Some (before, after) => Some (String c before, after)
           | None => None
           end
  end.

(** Text outside fenced blocks: one paragraph token, none for no text. *)
Definition paragraph (s : string) : list Token :=
  match s with
  | EmptyString => []
  | _ => [{| type := "paragraph"; raw := s |}]
  end.

(** The token of a fenced block: its raw text keeps both fence markers. *)
Definition code (body : string) : Token :=
  {| type := "code"; raw := fence ++ body ++ fence |}.

(** Modelled from the spec: the scan of [marked.lexer], block after block.
    Every block found uses up at least its two markers, so a [fuel] of the
    length of [s] is never used up. *)
Fixpoint lex (fuel : nat) (s : string) : list Token :=
  match fuel with
  | O => paragraph s
  | S fuel' =>
      match splitAtFence s with
      | None => paragraph s
      | Some (before, rest) =>
          match splitAtFence rest with
          | None => paragraph s
          | Some (body, after) =>
              (paragraph before ++ code body :: lex fuel' after)%list
          end
      end
  end.

(** Modelled from the spec: [marked.lexer] of [vs/base/common/marked], which
    is not among the sources.  The spec describes its use as parsing the
    buffer into top-level tokens of which some are fenced-code tokens, a
    fenced code block being "literal text delimited with triple-backtick
    markers": the text from a fence marker to the next one is a token of
    type [code] whose raw text includes both markers, and the text around
    such blocks is paragraph text.  A marker that is never closed delimits
    nothing. *)
Definition lexer (s : string) : list Token := lex (String.length s) s.

End Marked.

(** ** Histories of a controller *)

(** What can happen to a controller after it was constructed: its methods
    are called, the user types in the widget, and the collaborators change. *)
Inductive Call :=
| callLayout (dimension : IDimension)
| callXtermReady
| callChatWidget
| callCancel
| callAcceptInput (run : AgentRun)
| callAcceptCommand
| callReveal
| fireDidFocus
| fireDidBlur
| fireDidChangeAgents
| userTypes (text : string)
| hostChanges (flag agent dom det : bool).

Definition typeInto (text : string) (l : Lazy TerminalChatWidget) :=
  {| didRun := didRun l;
     rawValue := match rawValue l with
                 | Some _ => Some {| inputValue := text |}
                 | None => None
                 end |}.

Section Histories.

Variable lexer : string -> list Token.

(** One call; an exception goes to that call's own caller and the world it
    left behind stays. *)
Definition step (w : World) (c : Call) : World :=
  match c with
  | callLayout d => snd (layout d w)
  | callXtermReady => snd (xtermReady w)
  | callChatWidget => snd (chatWidget w)
  | callCancel => snd (cancel w)
  | callAcceptInput run => snd (acceptInput lexer run w)
  | callAcceptCommand => snd (acceptCommand w)
  | callReveal => snd (reveal w)
  | fireDidFocus =>
      match rawWidget w with Some _ => snd (onDidFocus w) | None => w end
  | fireDidBlur =>
      match rawWidget w with Some _ => snd (onDidBlur w) | None => w end
  | fireDidChangeAgents =>
      if agentsListener (host w) then snd (agentsChanged w) else w
  | userTypes text =>
      set_this (fun c => with_chatWidget (option_map (typeInto text) (_chatWidget c)) c) w
  | hostChanges flag agent dom det =>
      set_host (with_environment flag agent dom det) w
  end.

Definition history (w : World) (cs : list Call) : World := fold_left step cs w.

End Histories.

(** A call in the course of which [cancel()] is called: [cancel()] itself, or
    a request during whose agent invocation it arrives. *)
Definition isCancelCalled (p : Pending) : bool :=
  match p with
  | cancelCalled => true
  | onProgress _ => false
  end.

Definition cancels (c : Call) : bool :=
  match c with
  | callCancel => true
  | callAcceptInput run => existsb isCancelCalled (pending run)
  | _ => false
  end.

(** ** Observations on a trace *)

(** The events emitted between an earlier world and a later one. *)
Definition since (w w' : World) : list Event :=
  skipn (List.length (trace w)) (trace w').

(** The render calls of a trace, in order. *)
Definition isRender (e : Event) : bool :=
  match e with
  | widget (Widget.renderTerminalCommand _ _) => true
  | widget (Widget.renderMessage _ _ _) => true
  | _ => false
  end.

Definition renders (t : list Event) : list Event := filter isRender t.

(** The chunks forwarded to [updateProgress], in order. *)
Fixpoint progressUpdates (t : list Event) : list IChatProgress :=
  match t with
  | [] => []
  | widget (Widget.updateProgress (Some p)) :: t => p :: progressUpdates t
  | _ :: t => progressUpdates t
  end.

(** The argument-less [updateProgress()] calls, which clear the display. *)
Definition isProgressClear (e : Event) : bool :=
  match e with
  | widget (Widget.updateProgress None) => true
  | _ => false
  end.

(** ** States of a controller *)

(** The constructor ran with the feature enabled: the four [!] fields hold
    what lines 65-78 assign. *)
Definition initialized (w : World) : Prop :=
  _ctxHasActiveRequest (this w) = Some chatRequestActive /\
  _ctxHasTerminalAgent (this w) = Some chatAgentRegistered /\
  _ctxLastResponseType (this w) = Some CTX_INLINE_CHAT_RESPONSE_TYPES /\
  exists src, _cancellationTokenSource (this w) = Some src.

(** The flag of the controller's cancellation token. *)
Definition cancelled (w : World) : bool :=
  match _cancellationTokenSource (this w) with
  | Some src => isCancellationRequested src
  | None => false
  end.

(** The value of the active-request context key. *)
Definition hasActiveRequest (w : World) : option bool :=
  requestActive (contextKeys (host w)).

(** ** The pending phase, as pure functions of the agent's behaviour *)

Definition textBearing (p : IChatProgress) : bool :=
  (kind p =? "content") || (kind p =? "markdownContent").

(** The in-order concatenation of the content of the text-bearing chunks. *)
Fixpoint text (chunks : list IChatProgress) : string :=
  match chunks with
  | [] => ""
  | p :: chunks => if textBearing p then content p ++ text chunks else text chunks
  end.

(** The chunks that arrive while the token is not cancelled; [c] is the flag
    at the start. *)
Fixpoint accepted (c : bool) (evs : list Pending) : list IChatProgress :=
  match evs with
  | [] => []
  | onProgress p :: evs => if c then accepted c evs else p :: accepted c evs
  | cancelCalled :: evs => accepted true evs
  end.

(** The flag at the end of the pending phase. *)
Fixpoint cancelledAfter (c : bool) (evs : list Pending) : bool :=
  match evs with
  | [] => c
  | onProgress _ :: evs => cancelledAfter c evs
  | cancelCalled :: evs => cancelledAfter true evs
  end.

(** The world after the pending phase: the token carries the final flag and
    the accepted chunks were forwarded to the widget, if there is one. *)
Definition forward (p : IChatProgress) : Event :=
  widget (Widget.updateProgress (Some p)).

Definition afterPending (src : CancellationTokenSource) (evs : list Pending)
  (w : World) : World :=
  let c := isCancellationRequested src in
  {| this := with_cancellationTokenSource
               (Some {| tokenId := tokenId src;
                        isCancellationRequested := cancelledAfter c evs |}) (this w);
     host := host w;
     trace := (trace w ++ match rawWidget w with
                          | Some _ => map forward (accepted c evs)
                          | None => []
                          end)%list |}.

(** ** One request, end to end *)

(** What reaches the widget of [w] out of a list of optional-chained calls:
    all of them if it has been instantiated, none otherwise. *)
Definition sink (w : World) (calls : list Widget.Call) : list Event :=
  match rawWidget w with
  | Some _ => map widget calls
  | None => []
  end.

(** The text of the input box, or the empty string without a widget. *)
Definition inputText (w : World) : string :=
  match rawWidget w with
  | Some wd => inputValue wd
  | None => ""
  end.

(** The request object of lines 139-146. *)
Definition requestProps (w : World) : IChatAgentRequest :=
  {| sessionId := uuid (S (uuids (host w)));
     requestId := uuid (uuids (host w));
     agentId := "terminal";
     message := inputText w;
     variables := [];
     variables2_message := inputText w;
     variables2_variables := [] |}.

(** The branch lines 157 and 162 choose for a buffer: the command branch when
    the stripped first code token is a non-empty string, the message branch
    otherwise. *)
Definition outcomeOf (lexer : string -> list Token) (buffer : string) : Outcome :=
  match codeBlock lexer buffer with
  | Some (String a s) => Command (String a s)
  | _ => Message buffer
  end.

(** The render call of an outcome. *)
Definition renderCall (o : Outcome) (id : N) (requestId : Uuid) : Widget.Call :=
  match o with
  | Command codeBlock => Widget.renderTerminalCommand codeBlock id
  | Message message => Widget.renderMessage message id requestId
  end.

Section Request.

Variable lexer : string -> list Token.
Variable run : AgentRun.
Variable w : World.
Variable src : CancellationTokenSource.

(** The buffer and the flag when [invokeAgent] settles. *)
Definition finalBuffer : string :=
  text (accepted (isCancellationRequested src) (pending run)).
Definition finalFlag : bool :=
  cancelledAfter (isCancellationRequested src) (pending run).

Definition started : list Event :=
  ([acceptRequest; ctxSetBool chatRequestActive true]
   ++ sink w [Widget.input; Widget.input; Widget.setValue]
   ++ [invokeAgent "terminal" (requestProps w) src])%list.

Definition streamed : list Event :=
  sink w (map (fun p => Widget.updateProgress (Some p))
              (accepted (isCancellationRequested src) (pending run))).

(** The branch of lines 162-168 for the final buffer, and its render call. *)
Definition finalOutcome : Outcome := outcomeOf lexer finalBuffer.

Definition rendering : Widget.Call :=
  renderCall finalOutcome (_accessibilityRequestId (this w) + 1)%N
    (uuid (uuids (host w))).

Definition finished : list Event :=
  match settled run with
  | rejected =>
      ctxSetBool chatRequestActive false :: sink w [Widget.updateProgress None]
  | resolved =>
      if finalFlag then []
      else
        (sink w [rendering]
         ++ match finalOutcome with
            | Command _ => []
            | Message _ => [ctxSetResponseType OnlyMessages]
            end
         ++ ctxSetBool chatRequestActive false
         :: sink w [Widget.updateProgress None])%list
  end.

Definition finalReturn : ReturnPoint :=
  match settled run with
  | rejected => inCatch
  | resolved => if finalFlag then atCancellationCheck else atEnd finalOutcome
  end.

(** The complete effect of [acceptInput] on a controller whose constructor
    ran with the feature enabled. *)
Record Effect (w' : World) : Prop := {
  effect_trace : trace w' = (trace w ++ started ++ streamed ++ finished)%list;
  effect_counter :
    _accessibilityRequestId (this w')
    = match settled run with
      | rejected => _accessibilityRequestId (this w)
      | resolved => (_accessibilityRequestId (this w) + 1)%N
      end;
  effect_active :
    hasActiveRequest w'
    = Some (match settled run with
            | rejected => false
            | resolved => finalFlag
            end);
  effect_registered :
    agentRegistered (contextKeys (host w')) = agentRegistered (contextKeys (host w));
  effect_responseType :
    lastResponseType (contextKeys (host w'))
    = match finalReturn with
      | atEnd (Message _) => Some OnlyMessages
      | _ => lastResponseType (contextKeys (host w))
      end;
  effect_token :
    _cancellationTokenSource (this w')
    = Some {| tokenId := tokenId src; isCancellationRequested := finalFlag |};
  effect_keys :
    _ctxHasActiveRequest (this w') = _ctxHasActiveRequest (this w) /\
    _ctxHasTerminalAgent (this w') = _ctxHasTerminalAgent (this w) /\
    _ctxLastResponseType (this w') = _ctxLastResponseType (this w);
  effect_widget :
    _chatWidget (this w') = match rawWidget w with
                            | Some _ => option_map clearInput (_chatWidget (this w))
                            | None => _chatWidget (this w)
                            end;
  effect_layout : _lastLayoutDimensions (this w') = _lastLayoutDimensions (this w);
  effect_uuids : uuids (host w') = S (S (uuids (host w)));
  effect_host :
    with_contextKeys (contextKeys (host w)) (with_uuids (uuids (host w)) (host w'))
    = host w
}.

End Request.

(** ** Preconditions and small predicates *)

(** The widget has been instantiated: the spec's precondition "a presentation
    sink is attached". *)
Definition attached (w : World) : Prop := exists wd, rawWidget w = Some wd.

(** An agent that streams [chunks] and settles, with no [cancel()] arriving
    meanwhile. *)
Definition streams (chunks : list IChatProgress) (s : Settled) : AgentRun :=
  {| pending := map onProgress chunks; settled := s |}.

Definition isCode (t : Token) : bool := type t =? "code".

(** A string without a backtick. *)
Fixpoint plain (s : string) : bool :=
  match s with
  | EmptyString => true
  | String c s' => negb (Ascii.eqb c "`") && plain s'
  end.

(** The number of backticks a string starts with. *)
Fixpoint lead (s : string) : nat :=
  match s with
  | String c s' => if Ascii.eqb c "`" then S (lead s') else 0
  | EmptyString => 0
  end.

(** ** Sample worlds *)

Definition emptyKeys : ContextKeyService :=
  {| requestActive := None; agentRegistered := None; lastResponseType := None |}.

(** A terminal whose chat agent is registered and whose DOM is there. *)
Definition sampleHost (flag : bool) : Host :=
  {| ExperimentalInlineChat := flag;
     terminalAgent := true;
     agentsListener := false;
     domElement := true;
     detached := false;
     activeChatWidget := false;
     contextKeys := emptyKeys;
     uuids := 0;
     tokens := 0 |}.

(** A controller just constructed, feature enabled: no widget yet. *)
Definition constructed : World := create (sampleHost true).

(** A controller just constructed with the feature disabled. *)
Definition disabled : World := create (sampleHost false).

(** The terminal became ready, the widget was opened and the user typed. *)
Definition typed : World :=
  history Marked.lexer constructed
    [callXtermReady; callChatWidget; userTypes "list files"].

Definition chunk (s : string) : IChatProgress := {| kind := "content"; content := s |}.
Definition note (s : string) : IChatProgress := {| kind := "progressMessage"; content := s |}.

(** ** Sample agents *)

(** A request during which the user cancels after the first chunk. *)
Definition interrupted : AgentRun :=
  {| pending := [onProgress (chunk "```echo "); cancelCalled; onProgress (chunk "hi```")];
     settled := resolved |}.

(** An agent that fails after one chunk. *)
Definition failing : AgentRun :=
  {| pending := [onProgress (chunk "hello")]; settled := rejected |}.

(** An agent that answers with a command. *)
Definition answering : AgentRun :=
  streams [chunk "```echo "; note "thinking"; chunk "hi```"] resolved.

(** The line feed. *)
Definition LF : string := String (Ascii.ascii_of_nat 10) "".

(** An agent that answers with a fenced block that names its language. *)
Definition bash : list IChatProgress :=
  [chunk ("```bash" ++ LF); chunk ("echo hi" ++ LF ++ "```")].

(** ** Invariants of a history *)

(** The controller is initialised and its token is the object numbered [n];
    if [b] holds the token is cancelled. *)
Definition holds (n : nat) (b : bool) (w : World) : Prop :=
  initialized w /\
  exists f, _cancellationTokenSource (this w)
            = Some {| tokenId := n; isCancellationRequested := f |}
            /\ (b = true -> f = true).

(** The fields assigned by the constructor. *)
Definition assigned (w : World) :=
  (_ctxHasActiveRequest (this w), _ctxHasTerminalAgent (this w),
   _ctxLastResponseType (this w), _cancellationTokenSource (this w)).

(** ** Independence of the feature flag *)

(** The same world with the setting changed to [b]. *)
Definition setFlag (b : bool) (w : World) : World :=
  set_host (fun h => with_environment b (terminalAgent h) (domElement h) (detached h) h) w.

(** A computation that neither reads nor writes the setting. *)
Definition flagBlind {A : Type} (m : M A) : Prop :=
  forall b w, m (setFlag b w) = (fst (m w), setFlag b (snd (m w))).

(** ** The controller over its whole life *)

(** The constructor returned at line 63: none of the four [!] fields was
    assigned. *)
Definition unassigned (w : World) : Prop :=
  assigned w = (None, None, None, None).

(** A controller as one of the two exits of the constructor leaves it. *)
Definition asConstructed (w : World) : Prop := initialized w \/ unassigned w.

(** The calls of [acceptInput] in a history whose agent invocation
    resolved. *)
Fixpoint resolvedRuns (cs : list Call) : nat :=
  match cs with
  | [] => 0
  | callAcceptInput run :: cs =>
      match settled run with
      | resolved => S (resolvedRuns cs)
      | rejected => resolvedRuns cs
      end
  | _ :: cs => resolvedRuns cs
  end.

(** The events that need a widget: a call on it, or its creation. *)
Definition touchesWidget (e : Event) : bool :=
  match e with
  | widget _ | createInstance => true
  | _ => false
  end.

(** The read of the getter [chatWidget], the one place that runs the
    builder. *)
Definition readsChatWidget (c : Call) : bool :=
  match c with
  | callChatWidget => true
  | _ => false
  end.

Definition isInvokeAgent (e : Event) : bool :=
  match e with
  | invokeAgent _ _ _ => true
  | _ => false
  end.

(** The collaborator calls that occur in the body of [acceptInput], lines
    121-171. *)
Definition requestEvent (e : Event) : bool :=
  match e with
  | acceptRequest => true
  | ctxSetBool chatRequestActive _ => true
  | ctxSetResponseType OnlyMessages => true
  | invokeAgent _ _ _ => true
  | widget Widget.input => true
  | widget Widget.setValue => true
  | widget (Widget.updateProgress _) => true
  | widget (Widget.renderTerminalCommand _ _) => true
  | widget (Widget.renderMessage _ _ _) => true
  | _ => false
  end.

Definition isSetActiveInstance (e : Event) : bool :=
  match e with
  | setActiveInstance => true
  | _ => false
  end.

(** A call after which a detached terminal instance is still detached. *)
Definition staysDetached (c : Call) : bool :=
  match c with
  | hostChanges _ _ _ det => det
  | _ => true
  end.

(** ** More sample hosts *)

(** No chat agent is registered for the terminal yet. *)
Definition agentless : Host := with_environment true false true false (sampleHost true).

(** The terminal has no DOM element. *)
Definition headless : Host := with_environment true true false false (sampleHost true).

(** A detached terminal instance. *)
Definition floating : Host := with_environment true true true true (sampleHost true).

Definition narrow : IDimension := {| width := 80; height := 24 |}.
Definition wide : IDimension := {| width := 120; height := 40 |}.

(** ** Proof steps *)

(** Opens a world into the fields of the controller and of the host. *)
Ltac open_world w :=
  let c := fresh "c" in
  let h := fresh "h" in
  let t := fresh "t" in
  destruct w as [c h t];
  destruct c as [cw ld id k1 k2 k3 cts];
  destruct h as [flag ag al dom det act ck uu tk].

(** * Properties *)

(** ** The model on small inputs *)

Example replaceAll_echo : JS.replaceAll fence "" "```echo hi```" = "echo hi".
Proof. reflexivity. Qed.

Example replaceAll_four : JS.replaceAll fence "" "````" = "`".
Proof. reflexivity. Qed.

Example lexer_echo :
  Marked.lexer "```echo hi```" = [{| type := "code"; raw := "```echo hi```" |}].
Proof. reflexivity. Qed.

Example lexer_mixed :
  Marked.lexer "run ```ls``` or ```pwd```."
  = [ {| type := "paragraph"; raw := "run " |};
      {| type := "code"; raw := "```ls```" |};
      {| type := "paragraph"; raw := " or " |};
      {| type := "code"; raw := "```pwd```" |};
      {| type := "paragraph"; raw := "." |} ].
Proof. reflexivity. Qed.

Example lexer_unclosed :
  Marked.lexer "```ls" = [{| type := "paragraph"; raw := "```ls" |}].
Proof. reflexivity. Qed.

(** ** Strings *)

Lemma append_nil_r (s : string) : s ++ "" = s.
Proof. induction s as [|c s IH]; simpl; [reflexivity | now rewrite IH]. Qed.

Lemma append_assoc (a b c : string) : (a ++ b) ++ c = a ++ (b ++ c).
Proof. induction a as [|x a IH]; simpl; [reflexivity | now rewrite IH]. Qed.

Lemma length_append (a b : string) :
  String.length (a ++ b) = String.length a + String.length b.
Proof. induction a as [|x a IH]; simpl; [reflexivity | now rewrite IH]. Qed.

Lemma since_app (w w' : World) (l : list Event) :
  trace w' = (trace w ++ l)%list -> since w w' = l.
Proof.
  unfold since. intros ->.
  rewrite skipn_app, skipn_all, Nat.sub_diag. reflexivity.
Qed.

Lemma progressUpdates_app (a b : list Event) :
  progressUpdates (a ++ b)%list = (progressUpdates a ++ progressUpdates b)%list.
Proof.
  induction a as [|e a IH]; simpl; [reflexivity|].
  destruct e as [| | | | | | | |c]; try exact IH.
  destruct c as [| |[p|]| | | | | |]; simpl; try exact IH.
  now rewrite IH.
Qed.

Lemma accepted_cancelled (evs : list Pending) : accepted true evs = [].
Proof. induction evs as [|[p|] evs IH]; simpl; auto. Qed.

Lemma cancelledAfter_cancelled (evs : list Pending) : cancelledAfter true evs = true.
Proof. induction evs as [|[p|] evs IH]; simpl; auto. Qed.

Lemma cancelledAfter_cancelCalled (c : bool) (evs : list Pending) :
  In cancelCalled evs -> cancelledAfter c evs = true.
Proof.
  induction evs as [|[p|] evs IH] in c |- *; simpl; intros H.
  - contradiction.
  - destruct H as [H|H]; [discriminate | auto].
  - apply cancelledAfter_cancelled.
Qed.

Lemma accepted_chunks (chunks : list IChatProgress) :
  accepted false (map onProgress chunks) = chunks.
Proof. induction chunks as [|p chunks IH]; simpl; [reflexivity | now rewrite IH]. Qed.

Lemma cancelledAfter_chunks (c : bool) (chunks : list IChatProgress) :
  cancelledAfter c (map onProgress chunks) = c.
Proof. induction chunks as [|p chunks IH]; simpl; auto. Qed.

Lemma progressCallback_spec (message : string) (p : IChatProgress) (w : World)
  (src : CancellationTokenSource) :
  _cancellationTokenSource (this w) = Some src ->
  progressCallback message p w
  = if isCancellationRequested src then (Ok message, w)
    else (Ok (if textBearing p then message ++ content p else message),
          match rawWidget w with
          | Some _ => emit (forward p) w
          | None => w
          end).
Proof.
  intros Hsrc.
  unfold progressCallback, bind, cancellationRequested, gets, widgetCall, ret.
  rewrite Hsrc. destruct (isCancellationRequested src); [reflexivity|].
  unfold textBearing, forward. destruct (rawWidget w); reflexivity.
Qed.

Lemma deliver_spec (evs : list Pending) :
  forall (message : string) (w : World) (src : CancellationTokenSource),
    _cancellationTokenSource (this w) = Some src ->
    deliver message evs w
    = (Ok (message ++ text (accepted (isCancellationRequested src) evs)),
       afterPending src evs w).
Proof.
  induction evs as [|[p|] evs IH]; intros message w src Hsrc.
  - destruct w as [c h t], c as [cw ld id k1 k2 k3 cts], src as [n b].
    simpl in Hsrc; subst cts.
    unfold afterPending, rawWidget; simpl.
    rewrite append_nil_r. destruct cw as [[dr [wd|]]|]; simpl; now rewrite app_nil_r.
  - cbn [deliver]. unfold bind.
    rewrite (progressCallback_spec message p w Hsrc).
    destruct w as [c h t], c as [cw ld id k1 k2 k3 cts], src as [n b].
    simpl in Hsrc; subst cts.
    destruct b; cbn [isCancellationRequested].
    + erewrite IH by reflexivity. reflexivity.
    + unfold rawWidget; cbn [this _chatWidget].
      destruct cw as [[dr [wd|]]|]; cbn;
        (erewrite IH by reflexivity); unfold afterPending, rawWidget; cbn;
        destruct (textBearing p);
        rewrite ?append_assoc, <- ?app_assoc; reflexivity.
  - destruct w as [c h t], c as [cw ld id k1 k2 k3 cts], src as [n b].
    simpl in Hsrc; subst cts.
    cbn [deliver]. unfold bind, modify, cancel. cbn.
    erewrite IH by reflexivity.
    unfold afterPending, rawWidget; cbn.
    reflexivity.
Qed.

Lemma or_else_input (s : string) : JS.or_else (Some s) "" = s.
Proof. destruct s; reflexivity. Qed.

Lemma acceptInput_spec (lexer : string -> list Token) (run : AgentRun) (w : World)
  (src : CancellationTokenSource) :
  initialized w ->
  _cancellationTokenSource (this w) = Some src ->
  exists w',
    acceptInput lexer run w
    = (Ok {| returnedAt := finalReturn lexer run src;
            buffer := finalBuffer run src |}, w')
    /\ Effect lexer run w src w'.
Proof.
  intros (H1 & H2 & H3 & _) Hsrc.
  destruct w as [c h t], c as [cw ld id k1 k2 k3 cts].
  cbn in H1, H2, H3, Hsrc. subst k1 k2 k3 cts.
  destruct h as [flag ag al dom det act [ra ar lr] uu tk].
  unfold acceptInput.
  unfold bind at 1.
  destruct cw as [[dr [wd|]]|];
    cbn -[deliver codeBlock];
    unfold bind at 1;
    (erewrite deliver_spec by reflexivity);
    unfold finalReturn, finalOutcome, outcomeOf, finalFlag, finalBuffer,
      afterPending, rawWidget, bind;
    cbn -[codeBlock];
    destruct (settled run) eqn:Es; cbn -[codeBlock];
    try (destruct (cancelledAfter (isCancellationRequested src) (pending run)) eqn:Ec;
         cbn -[codeBlock]);
    try (destruct (codeBlock lexer (text (accepted (isCancellationRequested src) (pending run))))
           as [[|a s]|] eqn:Eb; cbn -[codeBlock]);
    (eexists; split; [reflexivity|]);
    (constructor;
     unfold started, streamed, finished, rendering, renderCall, finalOutcome,
       outcomeOf, sink, rawWidget,
       inputText, requestProps, finalFlag, finalBuffer, finalReturn,
       hasActiveRequest, forward;
     cbn -[codeBlock];
     rewrite ?Es, ?Ec, ?Eb, ?or_else_input, ?map_map, <- ?app_assoc;
     cbn -[codeBlock];
     rewrite ?Eb, ?app_nil_r;
     unfold finalFlag; rewrite ?Ec;
     unfold finalOutcome, outcomeOf, finalBuffer; rewrite ?Eb;
     auto).
Qed.

(** ** Facts about one request *)

Lemma renders_app (a b : list Event) :
  renders (a ++ b)%list = (renders a ++ renders b)%list.
Proof. apply filter_app. Qed.

Lemma renders_started (w : World) (src : CancellationTokenSource) :
  renders (started w src) = [].
Proof. unfold started, sink. destruct (rawWidget w); reflexivity. Qed.

Lemma renders_streamed (run : AgentRun) (w : World) (src : CancellationTokenSource) :
  renders (streamed run w src) = [].
Proof.
  unfold streamed, sink. destruct (rawWidget w); [|reflexivity].
  induction (accepted (isCancellationRequested src) (pending run)); simpl; auto.
Qed.

Lemma progressUpdates_started (w : World) (src : CancellationTokenSource) :
  progressUpdates (started w src) = [].
Proof. unfold started, sink. destruct (rawWidget w); reflexivity. Qed.

Lemma progressUpdates_streamed (run : AgentRun) (w : World)
  (src : CancellationTokenSource) (wd : TerminalChatWidget) :
  rawWidget w = Some wd ->
  progressUpdates (streamed run w src)
  = accepted (isCancellationRequested src) (pending run).
Proof.
  intros H. unfold streamed, sink. rewrite H.
  induction (accepted (isCancellationRequested src) (pending run)) as [|p l IH];
    simpl; [reflexivity | now rewrite IH].
Qed.

Lemma cancelledAfter_quiet (evs : list Pending) :
  ~ In cancelCalled evs -> cancelledAfter false evs = false.
Proof.
  induction evs as [|[p|] evs IH]; simpl; intros H; auto.
  exfalso; auto.
Qed.

Lemma text_concat (chunks : list IChatProgress) :
  text chunks = fold_right append "" (map content (filter textBearing chunks)).
Proof.
  induction chunks as [|p chunks IH]; simpl; [reflexivity|].
  destruct (textBearing p); simpl; now rewrite IH.
Qed.

(** ** Facts about stripping fences *)

#[local] Arguments Ascii.eqb : simpl never.

Lemma replaceAll_fence (t : string) :
  JS.replaceAll fence "" (fence ++ t) = JS.replaceAll fence "" t.
Proof. reflexivity. Qed.

Lemma replaceAll_char (c : ascii) (s : string) :
  JS.startsWith fence (String c s) = false ->
  JS.replaceAll fence "" (String c s) = String c (JS.replaceAll fence "" s).
Proof. unfold JS.replaceAll. cbn [JS.replaceAll_from]. now intros ->. Qed.

Lemma replaceAll_plain (a t : string) :
  plain a = true ->
  JS.replaceAll fence "" (a ++ t) = a ++ JS.replaceAll fence "" t.
Proof.
  induction a as [|c a IH]; simpl; intros H; [reflexivity|].
  apply andb_prop in H as [Hc Ha].
  rewrite replaceAll_char.
  - now rewrite IH.
  - simpl. apply negb_true_iff in Hc.
    rewrite Ascii.eqb_sym, Hc. reflexivity.
Qed.

(** Induction along the scan of [replaceAll]: a string is empty, starts with
    a fence, or starts with a character that begins no fence. *)
Lemma fence_scan_ind (P : string -> Prop) :
  P "" ->
  (forall t, P t -> P (fence ++ t)) ->
  (forall c s, JS.startsWith fence (String c s) = false -> P s -> P (String c s)) ->
  forall s, P s.
Proof.
  intros Hnil Hfence Hchar s.
  remember (String.length s) as n eqn:Hn.
  revert s Hn. induction n as [n IH] using lt_wf_ind. intros s Hn.
  destruct s as [|c s]; [exact Hnil|].
  destruct (JS.startsWith fence (String c s)) eqn:E.
  - destruct s as [|c2 [|c3 t]]; simpl in E;
      try (rewrite ?andb_false_r in E; discriminate).
    apply andb_prop in E as [E1 E]. apply andb_prop in E as [E2 E].
    apply andb_prop in E as [E3 _].
    apply Ascii.eqb_eq in E1, E2, E3. subst c c2 c3.
    apply (Hfence t). apply (IH (String.length t)); [|reflexivity].
    subst n. simpl. lia.
  - apply Hchar; [exact E|].
    apply (IH (String.length s)); [|reflexivity]. subst n. simpl. lia.
Qed.

Lemma lead_replaceAll (s : string) :
  lead (JS.replaceAll fence "" s) <= lead s.
Proof.
  induction s as [|t IH|c s E IH] using fence_scan_ind.
  - reflexivity.
  - rewrite replaceAll_fence. simpl. lia.
  - rewrite (@replaceAll_char c s E). simpl. destruct (Ascii.eqb c "`"); lia.
Qed.

Lemma startsWith_fence_lead (s : string) :
  JS.startsWith fence s = true <-> 3 <= lead s.
Proof.
  split.
  - destruct s as [|a [|b [|c s]]]; simpl; try discriminate;
      rewrite ?andb_false_r; try discriminate.
    intros H. apply andb_prop in H as [Ha H]. apply andb_prop in H as [Hb H].
    apply andb_prop in H as [Hc _].
    apply Ascii.eqb_eq in Ha, Hb, Hc. subst a b c. simpl. lia.
  - destruct s as [|a [|b [|c s]]]; simpl.
    + lia.
    + destruct (Ascii.eqb a "`"); lia.
    + destruct (Ascii.eqb a "`"); [|lia]. destruct (Ascii.eqb b "`"); lia.
    + destruct (Ascii.eqb a "`") eqn:Ea; [|lia].
      destruct (Ascii.eqb b "`") eqn:Eb; [|lia].
      destruct (Ascii.eqb c "`") eqn:Ec; [|lia].
      apply Ascii.eqb_eq in Ea, Eb, Ec. subst. reflexivity.
Qed.

(** Nothing that [replaceAll] returns contains a fence. *)
Lemma replaceAll_no_fence (s : string) :
  JS.includes fence (JS.replaceAll fence "" s) = false.
Proof.
  induction s as [|t IH|c s E IH] using fence_scan_ind.
  - reflexivity.
  - now rewrite replaceAll_fence.
  - rewrite (@replaceAll_char c s E).
    cbn [JS.includes]. rewrite IH, orb_false_r.
    destruct (JS.startsWith fence (String c (JS.replaceAll fence "" s))) eqn:F;
      [|reflexivity].
    apply startsWith_fence_lead in F.
    assert (3 <= lead (String c s)) as G.
    { pose proof (lead_replaceAll s). simpl in F |- *.
      destruct (Ascii.eqb c "`"); lia. }
    apply startsWith_fence_lead in G. congruence.
Qed.

(** ** Cancellation *)

Lemma typed_initialized : initialized typed.
Proof. repeat split; try reflexivity. eexists; reflexivity. Qed.

Lemma typed_attached : attached typed.
Proof. eexists; reflexivity. Qed.

(** C1, as the code behaves.  When the token is cancelled before the
    classification step (it was cancelled already, or [cancel()] arrives
    while the agent call is pending) and the agent call resolves,
    [acceptInput] returns at the cancellation check of line 159: no
    render-command or render-message call is made, and the active-request
    context key still holds [true], the value line 124 gave it.  The claim
    says the flag is cleared; the early return skips the reset that both the
    catch block and the end of the method perform. *)
Theorem cancelled_request_keeps_flag (lexer : string -> list Token) (run : AgentRun)
  (w : World) (src : CancellationTokenSource) :
  initialized w ->
  _cancellationTokenSource (this w) = Some src ->
  isCancellationRequested src = true \/ In cancelCalled (pending run) ->
  settled run = resolved ->
  (exists buf, fst (acceptInput lexer run w)
               = Ok {| returnedAt := atCancellationCheck; buffer := buf |})
  /\ renders (since w (snd (acceptInput lexer run w))) = []
  /\ hasActiveRequest (snd (acceptInput lexer run w)) = Some true.
Proof.
  intros Hinit Hsrc Hc Hs.
  destruct (acceptInput_spec lexer run Hinit Hsrc) as (w' & Hrun & E).
  rewrite Hrun. cbn [fst snd].
  assert (finalFlag run src = true) as Hf.
  { unfold finalFlag. destruct Hc as [Hc|Hc].
    - rewrite Hc. apply cancelledAfter_cancelled.
    - now apply cancelledAfter_cancelCalled. }
  split; [|split].
  - exists (finalBuffer run src). unfold finalReturn. now rewrite Hs, Hf.
  - rewrite (since_app w w' _ (effect_trace E)).
    rewrite !renders_app, renders_started, renders_streamed.
    unfold finished. now rewrite Hs, Hf.
  - rewrite (effect_active E). now rewrite Hs, Hf.
Qed.

(** C1 at the failing input: the user cancels while the agent is streaming. *)
Lemma cancelled_request_keeps_flag_witness :
  initialized typed
  /\ _cancellationTokenSource (this typed)
     = Some {| tokenId := 0; isCancellationRequested := false |}
  /\ In cancelCalled (pending interrupted)
  /\ settled interrupted = resolved
  /\ (exists buf, fst (acceptInput Marked.lexer interrupted typed)
                  = Ok {| returnedAt := atCancellationCheck; buffer := buf |})
  /\ renders (since typed (snd (acceptInput Marked.lexer interrupted typed))) = []
  /\ hasActiveRequest (snd (acceptInput Marked.lexer interrupted typed)) = Some true.
Proof.
  assert (In cancelCalled (pending interrupted)) as Hin by (simpl; auto).
  split; [exact typed_initialized|]. split; [reflexivity|].
  split; [exact Hin|]. split; [reflexivity|].
  exact (@cancelled_request_keeps_flag Marked.lexer interrupted typed
           {| tokenId := 0; isCancellationRequested := false |}
           typed_initialized eq_refl (or_intror Hin) eq_refl).
Defined.

(** The two other exits of [acceptInput], the catch block and the end of the
    method, do reset the flag. *)
Lemma other_exits_reset_flag (lexer : string -> list Token) (run : AgentRun)
  (w : World) (c : Completion) :
  initialized w ->
  fst (acceptInput lexer run w) = Ok c ->
  returnedAt c <> atCancellationCheck ->
  hasActiveRequest (snd (acceptInput lexer run w)) = Some false.
Proof.
  intros Hinit Hc Hr.
  pose proof Hinit as (_ & _ & _ & src & Hsrc).
  destruct (acceptInput_spec lexer run Hinit Hsrc) as (w' & Hrun & E).
  rewrite Hrun in Hc |- *. cbn [fst snd] in *. injection Hc as <-.
  rewrite (effect_active E). cbn [returnedAt] in Hr. unfold finalReturn in Hr.
  destruct (settled run); [|reflexivity].
  destruct (finalFlag run src); [contradiction | reflexivity].
Qed.

(** ** The accessibility-request counter *)

(** C3 fails as stated: when the agent invocation raises, [acceptInput]
    returns from the catch block before line 158 and the counter keeps its
    value. *)
Lemma counter_not_incremented_on_agent_error :
  initialized typed
  /\ (exists buf, fst (acceptInput Marked.lexer failing typed)
                  = Ok {| returnedAt := inCatch; buffer := buf |})
  /\ _accessibilityRequestId (this (snd (acceptInput Marked.lexer failing typed)))
     <> (_accessibilityRequestId (this typed) + 1)%N.
Proof.
  split; [exact typed_initialized|]. split.
  - eexists; reflexivity.
  - vm_compute. discriminate.
Qed.

(** C3, amended.  On a controller constructed with the feature enabled,
    every call of [acceptInput] whose agent invocation completes without
    raising increments the accessibility-request counter exactly once,
    whether it then renders a command, renders a message or returns at the
    cancellation check: the increment comes before that check.  When the
    agent invocation raises, the counter is unchanged. *)
Theorem counter_incremented_once (lexer : string -> list Token) (run : AgentRun)
  (w : World) :
  initialized w ->
  exists c,
    fst (acceptInput lexer run w) = Ok c
    /\ _accessibilityRequestId (this (snd (acceptInput lexer run w)))
       = match returnedAt c with
         | inCatch => _accessibilityRequestId (this w)
         | atCancellationCheck | atEnd _ => (_accessibilityRequestId (this w) + 1)%N
         end
    /\ (settled run = rejected <-> returnedAt c = inCatch).
Proof.
  intros Hinit.
  destruct Hinit as (H1 & H2 & H3 & src & Hsrc).
  destruct (@acceptInput_spec lexer run w src) as (w' & Hrun & E);
    [repeat split; eauto | exact Hsrc |].
  rewrite Hrun. cbn [fst snd]. eexists. split; [reflexivity|].
  cbn [returnedAt]. rewrite (effect_counter E). unfold finalReturn.
  destruct (settled run); [destruct (finalFlag run src)|];
    (split; [reflexivity | split; congruence]).
Qed.

Lemma counter_incremented_once_witness :
  initialized typed
  /\ _accessibilityRequestId (this typed) = 0%N
  /\ _accessibilityRequestId (this (snd (acceptInput Marked.lexer interrupted typed))) = 1%N
  /\ _accessibilityRequestId (this (snd (acceptInput Marked.lexer answering typed))) = 1%N
  /\ _accessibilityRequestId (this (snd (acceptInput Marked.lexer failing typed))) = 0%N.
Proof.
  split; [exact typed_initialized|]. split; [reflexivity|].
  split; [|split].
  - destruct (@counter_incremented_once Marked.lexer interrupted typed typed_initialized)
      as (c & Hc & Hid & _).
    rewrite Hid. injection Hc as <-. reflexivity.
  - destruct (@counter_incremented_once Marked.lexer answering typed typed_initialized)
      as (c & Hc & Hid & _).
    rewrite Hid. injection Hc as <-. reflexivity.
  - destruct (@counter_incremented_once Marked.lexer failing typed typed_initialized)
      as (c & Hc & Hid & _).
    rewrite Hid. injection Hc as <-. reflexivity.
Defined.

(** ** Agent failure *)

(** Without a widget (the sink "may be absent", in the spec's words) a
    failing agent makes [acceptInput] reset the flag, and the progress-clear
    of line 154 is silently dropped, the call being optional-chained. *)
Lemma agent_error_without_widget :
  initialized constructed
  /\ settled failing = rejected
  /\ since constructed (snd (acceptInput Marked.lexer failing constructed))
     = [acceptRequest; ctxSetBool chatRequestActive true;
        invokeAgent "terminal" (requestProps constructed)
          {| tokenId := 0; isCancellationRequested := false |};
        ctxSetBool chatRequestActive false]
  /\ filter isProgressClear
       (since constructed (snd (acceptInput Marked.lexer failing constructed))) = [].
Proof.
  split; [|repeat split].
  repeat split; try reflexivity. eexists; reflexivity.
Qed.

(** C5.  If the agent invocation raises, [acceptInput] (on a controller
    constructed with the feature enabled) sets the active-request flag to
    false and issues the progress-clear [updateProgress()] to the attached
    widget as its last action; it renders no command and no message, leaves
    the counter and the last-response-type flag as they were, and its promise
    is fulfilled: the error does not reach the caller.  When no widget is
    attached, the case the spec's precondition sets apart, the progress-clear
    is dropped and the rest is the same. *)
Theorem agent_error_is_swallowed (lexer : string -> list Token) (run : AgentRun)
  (w : World) :
  initialized w ->
  settled run = rejected ->
  let w' := snd (acceptInput lexer run w) in
  (exists buf, fst (acceptInput lexer run w)
               = Ok {| returnedAt := inCatch; buffer := buf |})
  /\ hasActiveRequest w' = Some false
  /\ (attached w ->
      exists before,
        since w w' = (before ++ [ctxSetBool chatRequestActive false;
                                 widget (Widget.updateProgress None)])%list
        /\ filter isProgressClear before = [])
  /\ (rawWidget w = None -> filter isProgressClear (since w w') = [])
  /\ renders (since w w') = []
  /\ _accessibilityRequestId (this w') = _accessibilityRequestId (this w)
  /\ lastResponseType (contextKeys (host w')) = lastResponseType (contextKeys (host w)).
Proof.
  intros Hinit Hs. cbn zeta.
  pose proof Hinit as (_ & _ & _ & src & Hsrc).
  destruct (acceptInput_spec lexer run Hinit Hsrc) as (w' & Hrun & E).
  rewrite Hrun. cbn [fst snd].
  rewrite (since_app w w' _ (effect_trace E)).
  split; [|split; [|split; [|split; [|split; [|split]]]]].
  - eexists. unfold finalReturn. now rewrite Hs.
  - rewrite (effect_active E). now rewrite Hs.
  - intros (wd & Hwd).
    exists (started w src ++ streamed run w src)%list. split.
    + unfold finished, sink. rewrite Hs, Hwd. now rewrite <- app_assoc.
    + rewrite filter_app. unfold started, streamed, sink. rewrite Hwd. simpl.
      induction (accepted (isCancellationRequested src) (pending run)); simpl; auto.
  - intros Hwd. unfold started, streamed, finished, sink. rewrite Hs, Hwd.
    reflexivity.
  - rewrite !renders_app, renders_started, renders_streamed.
    unfold finished, sink. rewrite Hs. destruct (rawWidget w); reflexivity.
  - rewrite (effect_counter E). now rewrite Hs.
  - rewrite (effect_responseType E). unfold finalReturn. now rewrite Hs.
Qed.

Lemma agent_error_is_swallowed_witness :
  initialized typed /\ settled failing = rejected /\ attached typed
  /\ (exists buf, fst (acceptInput Marked.lexer failing typed)
                  = Ok {| returnedAt := inCatch; buffer := buf |})
  /\ hasActiveRequest (snd (acceptInput Marked.lexer failing typed)) = Some false
  /\ exists before,
       since typed (snd (acceptInput Marked.lexer failing typed))
       = (before ++ [ctxSetBool chatRequestActive false;
                     widget (Widget.updateProgress None)])%list
       /\ filter isProgressClear before = [].
Proof.
  split; [exact typed_initialized|]. split; [reflexivity|].
  split; [exact typed_attached|].
  destruct (@agent_error_is_swallowed Marked.lexer failing typed
              typed_initialized eq_refl) as (H1 & H2 & H3 & _).
  split; [exact H1|]. split; [exact H2 | exact (H3 typed_attached)].
Defined.

(** ** Command or message *)

(** A request that streams [chunks], resolves and is not cancelled ends
    after the branch that [outcomeOf] names; the render call of that branch
    reaches the widget if there is one; the message branch sets the
    last-response-type flag. *)
Lemma completed_spec (lexer : string -> list Token) (chunks : list IChatProgress)
  (w : World) :
  initialized w ->
  cancelled w = false ->
  let w' := snd (acceptInput lexer (streams chunks resolved) w) in
  let id := (_accessibilityRequestId (this w) + 1)%N in
  let outcome := outcomeOf lexer (text chunks) in
  fst (acceptInput lexer (streams chunks resolved) w)
  = Ok {| returnedAt := atEnd outcome; buffer := text chunks |}
  /\ renders (since w w') = sink w [renderCall outcome id (uuid (uuids (host w)))]
  /\ lastResponseType (contextKeys (host w'))
     = match outcome with
       | Command _ => lastResponseType (contextKeys (host w))
       | Message _ => Some OnlyMessages
       end.
Proof.
  intros Hinit Hc. cbn zeta.
  pose proof Hinit as (_ & _ & _ & src & Hsrc).
  destruct (acceptInput_spec lexer (streams chunks resolved) Hinit Hsrc)
    as (w' & Hrun & E).
  rewrite Hrun. cbn [fst snd].
  unfold cancelled in Hc. rewrite Hsrc in Hc.
  assert (finalFlag (streams chunks resolved) src = false) as Hf.
  { unfold finalFlag. cbn [pending streams]. now rewrite cancelledAfter_chunks. }
  assert (finalBuffer (streams chunks resolved) src = text chunks) as Hb.
  { unfold finalBuffer. cbn [pending streams]. now rewrite Hc, accepted_chunks. }
  rewrite (since_app w w' _ (effect_trace E)).
  rewrite !renders_app, renders_started, renders_streamed.
  rewrite (effect_responseType E).
  unfold finished, finalReturn, rendering, finalOutcome, sink.
  cbn [settled streams]. rewrite Hf, Hb.
  split; [reflexivity|]. split; [|reflexivity].
  destruct (rawWidget w); [|destruct (outcomeOf lexer (text chunks)); reflexivity].
  destruct (outcomeOf lexer (text chunks)); reflexivity.
Qed.

Lemma quiet_run (run : AgentRun) :
  ~ In cancelCalled (pending run) ->
  exists chunks, run = streams chunks (settled run).
Proof.
  destruct run as [evs s]. cbn [pending settled]. intros H.
  assert (exists chunks, evs = map onProgress chunks) as (chunks & ->).
  { induction evs as [|[p|] evs IH].
    - exists []. reflexivity.
    - destruct IH as (chunks & ->); [intros G; apply H; now right|].
      exists (p :: chunks). reflexivity.
    - exfalso. apply H. now left. }
  exists chunks. reflexivity.
Qed.

(** An agent that answers with a command. *)
Example answering_renders_command :
  renders (since typed (snd (acceptInput Marked.lexer answering typed)))
  = [widget (Widget.renderTerminalCommand "echo hi" 1)].
Proof. reflexivity. Qed.

(** Without a widget (the sink "may be absent", in the spec's words) the
    branch is chosen all the same and its render call is silently dropped,
    on the command branch as on the message branch. *)
Lemma no_render_without_widget :
  initialized constructed /\ cancelled constructed = false
  /\ fst (acceptInput Marked.lexer answering constructed)
     = Ok {| returnedAt := atEnd (Command "echo hi"); buffer := "```echo hi```" |}
  /\ renders (since constructed (snd (acceptInput Marked.lexer answering constructed)))
     = []
  /\ fst (acceptInput Marked.lexer (streams [chunk "hello"] resolved) constructed)
     = Ok {| returnedAt := atEnd (Message "hello"); buffer := "hello" |}
  /\ renders (since constructed
                (snd (acceptInput Marked.lexer (streams [chunk "hello"] resolved)
                        constructed))) = [].
Proof.
  split; [|repeat split].
  repeat split; try reflexivity. eexists; reflexivity.
Qed.

(** C6.  For every run of [acceptInput] (controller constructed with the
    feature enabled) in which the agent invocation succeeds and cancellation
    was not requested, exactly one of the two branches runs, and the render
    calls made on the attached widget are exactly one call:
    [renderTerminalCommand] on the command branch, [renderMessage] on the
    message branch, never both and never neither.  The message branch sets
    the last-response-type flag to [OnlyMessages]; the command branch leaves
    it as it was.  When no widget is attached, the case the spec's
    precondition sets apart, the render call is dropped. *)
Theorem exactly_one_render (lexer : string -> list Token) (run : AgentRun)
  (w : World) :
  initialized w ->
  cancelled w = false ->
  ~ In cancelCalled (pending run) ->
  settled run = resolved ->
  let w' := snd (acceptInput lexer run w) in
  let id := (_accessibilityRequestId (this w) + 1)%N in
  exists outcome buf,
    fst (acceptInput lexer run w) = Ok {| returnedAt := atEnd outcome; buffer := buf |}
    /\ (attached w ->
        renders (since w w')
        = [widget match outcome with
                  | Command codeBlock => Widget.renderTerminalCommand codeBlock id
                  | Message message =>
                      Widget.renderMessage message id (uuid (uuids (host w)))
                  end])
    /\ (rawWidget w = None -> renders (since w w') = [])
    /\ lastResponseType (contextKeys (host w'))
       = match outcome with
         | Command _ => lastResponseType (contextKeys (host w))
         | Message _ => Some OnlyMessages
         end.
Proof.
  intros Hinit Hc Hq Hs. cbn zeta.
  destruct (quiet_run run Hq) as (chunks & Hrun). rewrite Hs in Hrun. subst run.
  destruct (@completed_spec lexer chunks w Hinit Hc) as (H1 & H2 & H3).
  exists (outcomeOf lexer (text chunks)), (text chunks).
  split; [exact H1|]. split; [|split; [|exact H3]].
  - intros (wd & Hwd). rewrite H2. unfold sink, renderCall. rewrite Hwd.
    destruct (outcomeOf lexer (text chunks)); reflexivity.
  - intros Hwd. rewrite H2. unfold sink. now rewrite Hwd.
Qed.

Lemma exactly_one_render_witness :
  initialized typed /\ cancelled typed = false
  /\ ~ In cancelCalled (pending answering) /\ settled answering = resolved
  /\ attached typed
  /\ exists call,
       renders (since typed (snd (acceptInput Marked.lexer answering typed)))
       = [widget call].
Proof.
  assert (~ In cancelCalled (pending answering)) as Hq.
  { simpl. intros [H|[H|[H|[]]]]; discriminate. }
  split; [exact typed_initialized|]. split; [reflexivity|].
  split; [exact Hq|]. split; [reflexivity|]. split; [exact typed_attached|].
  destruct (@exactly_one_render Marked.lexer answering typed
              typed_initialized eq_refl Hq eq_refl)
    as (o & buf & _ & H & _).
  eexists. exact (H typed_attached).
Defined.

(** ** The buffer *)

(** Without a widget (the sink "may be absent", in the spec's words) a
    chunk of another kind adds no text to the buffer, and its forwarding to
    [updateProgress] is silently dropped. *)
Lemma chunk_not_forwarded_without_widget :
  initialized constructed /\ cancelled constructed = false
  /\ fst (acceptInput Marked.lexer (streams [note "thinking"] resolved) constructed)
     = Ok {| returnedAt := atEnd (Message ""); buffer := "" |}
  /\ progressUpdates
       (since constructed
          (snd (acceptInput Marked.lexer (streams [note "thinking"] resolved)
                  constructed))) = [].
Proof.
  split; [|repeat split].
  repeat split; try reflexivity. eexists; reflexivity.
Qed.

(** C8.  For every sequence of progress chunks delivered while
    cancellation is not requested, the buffer [acceptInput] ends with is the
    in-order concatenation of the [content] of the chunks whose kind is
    [content] or [markdownContent], so chunks of any other kind add no text;
    and every chunk, of whatever kind, is forwarded to the [updateProgress]
    of the attached widget, in order.  When no widget is attached, the case
    the spec's precondition sets apart, the forwarding is dropped. *)
Theorem buffer_accumulates (lexer : string -> list Token)
  (chunks : list IChatProgress) (s : Settled) (w : World) :
  initialized w ->
  cancelled w = false ->
  let w' := snd (acceptInput lexer (streams chunks s) w) in
  (exists at_,
      fst (acceptInput lexer (streams chunks s) w)
      = Ok {| returnedAt := at_;
              buffer := fold_right append ""
                          (map content (filter textBearing chunks)) |})
  /\ (attached w -> progressUpdates (since w w') = chunks)
  /\ (rawWidget w = None -> progressUpdates (since w w') = []).
Proof.
  intros Hinit Hc. cbn zeta.
  pose proof Hinit as (_ & _ & _ & src & Hsrc).
  destruct (acceptInput_spec lexer (streams chunks s) Hinit Hsrc) as (w' & Hrun & E).
  rewrite Hrun. cbn [fst snd].
  unfold cancelled in Hc. rewrite Hsrc in Hc.
  assert (progressUpdates (finished lexer (streams chunks s) w src) = []) as Hfin.
  { unfold finished, rendering, renderCall, sink.
    destruct (settled (streams chunks s)); [|destruct (rawWidget w); reflexivity].
    destruct (finalFlag (streams chunks s) src); [reflexivity|].
    destruct (rawWidget w);
      destruct (finalOutcome lexer (streams chunks s) src); reflexivity. }
  rewrite (since_app w w' _ (effect_trace E)).
  rewrite !progressUpdates_app, progressUpdates_started, Hfin, app_nil_r.
  split; [|split].
  - eexists. unfold finalBuffer. cbn [pending streams].
    now rewrite Hc, accepted_chunks, text_concat.
  - intros (wd & Hwd).
    rewrite (progressUpdates_streamed _ _ _ Hwd).
    cbn [pending streams]. now rewrite Hc, accepted_chunks.
  - intros Hwd. unfold streamed, sink. now rewrite Hwd.
Qed.

Lemma buffer_accumulates_witness :
  initialized typed /\ cancelled typed = false /\ attached typed
  /\ (exists at_, fst (acceptInput Marked.lexer answering typed)
                  = Ok {| returnedAt := at_; buffer := "```echo hi```" |})
  /\ progressUpdates (since typed (snd (acceptInput Marked.lexer answering typed)))
     = [chunk "```echo "; note "thinking"; chunk "hi```"].
Proof.
  split; [exact typed_initialized|]. split; [reflexivity|].
  split; [exact typed_attached|].
  destruct (@buffer_accumulates Marked.lexer
              [chunk "```echo "; note "thinking"; chunk "hi```"] resolved typed
              typed_initialized eq_refl) as (H1 & H2 & _).
  split; [exact H1 | exact (H2 typed_attached)].
Defined.

(** ** The lexer *)

Lemma splitAtFence_plain (a t : string) :
  plain a = true -> Marked.splitAtFence (a ++ fence ++ t) = Some (a, t).
Proof.
  induction a as [|c a IH]; intros H.
  - reflexivity.
  - simpl in H. apply andb_prop in H as [Hc Ha].
    apply negb_true_iff in Hc.
    change (String c a ++ fence ++ t) with (String c (a ++ fence ++ t)).
    cbn [Marked.splitAtFence].
    replace (JS.startsWith fence (String c (a ++ fence ++ t))) with false.
    + now rewrite IH.
    + unfold fence. cbn [JS.startsWith]. now rewrite Ascii.eqb_sym, Hc.
Qed.

Lemma filter_paragraph (s : string) : filter isCode (Marked.paragraph s) = [].
Proof. destruct s; reflexivity. Qed.

(** The first code token of a buffer whose first fenced block has the body
    [body], after text [pre] without backticks. *)
Lemma lexer_first_block (pre body post : string) :
  plain pre = true ->
  plain body = true ->
  exists rest,
    filter isCode (Marked.lexer (pre ++ fence ++ body ++ fence ++ post))
    = Marked.code body :: rest.
Proof.
  intros Hpre Hbody. unfold Marked.lexer.
  destruct (String.length (pre ++ fence ++ body ++ fence ++ post)) as [|n] eqn:E.
  - rewrite length_append in E. simpl in E. lia.
  - cbn [Marked.lex].
    rewrite (@splitAtFence_plain pre _ Hpre), (@splitAtFence_plain body _ Hbody).
    rewrite filter_app, filter_paragraph. simpl. eauto.
Qed.

Lemma lexer_no_fence (s : string) :
  JS.includes fence s = false -> Marked.lexer s = Marked.paragraph s.
Proof.
  intros H.
  assert (Marked.splitAtFence s = None) as E.
  { induction s as [|c s IH]; [reflexivity|].
    cbn [JS.includes] in H. apply orb_false_iff in H as [H1 H2].
    cbn [Marked.splitAtFence]. rewrite H1, (IH H2). reflexivity. }
  unfold Marked.lexer. destruct (String.length s); cbn [Marked.lex];
    [reflexivity | now rewrite E].
Qed.

Lemma no_fence_no_code (s : string) :
  JS.includes fence s = false -> filter isCode (Marked.lexer s) = [].
Proof. intros H. rewrite (lexer_no_fence s H). apply filter_paragraph. Qed.

(** The fuel [Marked.lexer] starts with is enough: more changes nothing. *)
Lemma splitAtFence_length (s before after : string) :
  Marked.splitAtFence s = Some (before, after) ->
  String.length s = String.length before + 3 + String.length after.
Proof.
  revert before. induction s as [|c s IH]; intros before H; [discriminate|].
  cbn [Marked.splitAtFence] in H.
  destruct (JS.startsWith fence (String c s)) eqn:E.
  - injection H as <- <-.
    destruct s as [|c2 [|c3 t]]; unfold fence in E; cbn [JS.startsWith] in E;
      rewrite ?andb_false_r in E; try discriminate.
    reflexivity.
  - destruct (Marked.splitAtFence s) as [[b a]|]; [|discriminate].
    injection H as <- <-. simpl. rewrite (IH b eq_refl). lia.
Qed.

Lemma lex_fuel (n m : nat) :
  forall s, String.length s <= n -> String.length s <= m ->
            Marked.lex n s = Marked.lex m s.
Proof.
  revert m. induction n as [|n IH]; intros m s Hn Hm.
  - destruct s; [|simpl in Hn; lia]. destruct m; reflexivity.
  - destruct m as [|m].
    + destruct s; [|simpl in Hm; lia]. reflexivity.
    + cbn [Marked.lex].
      destruct (Marked.splitAtFence s) as [[before rest]|] eqn:E1; [|reflexivity].
      destruct (Marked.splitAtFence rest) as [[body after]|] eqn:E2; [|reflexivity].
      apply splitAtFence_length in E1, E2.
      rewrite (IH m after); [reflexivity | lia | lia].
Qed.

(** ** Command extraction *)

Lemma codeBlock_first (lexer : string -> list Token) (buffer : string)
  (tok : Token) (rest : list Token) :
  filter isCode (lexer buffer) = tok :: rest ->
  codeBlock lexer buffer = Some (JS.replaceAll fence "" (raw tok)).
Proof. unfold codeBlock. fold isCode. now intros ->. Qed.

Lemma codeBlock_none (lexer : string -> list Token) (buffer : string) :
  filter isCode (lexer buffer) = [] -> codeBlock lexer buffer = None.
Proof. unfold codeBlock. fold isCode. now intros ->. Qed.

Lemma replaceAll_block (body : string) :
  plain body = true -> JS.replaceAll fence "" (fence ++ body ++ fence) = body.
Proof.
  intros H. rewrite replaceAll_fence, (@replaceAll_plain body fence H).
  change (JS.replaceAll fence "" fence) with "". apply append_nil_r.
Qed.

Lemma plain_no_fence (body : string) :
  plain body = true -> JS.includes fence body = false.
Proof. intros H. rewrite <- (replaceAll_block body H). apply replaceAll_no_fence. Qed.

(** C7.  The extraction of line 157 takes the first code token of the
    accumulated buffer and strips the fence markers from its raw text, for
    whatever lexer.  With the lexer as the spec describes it: a buffer whose
    first fenced block has the body [body] (after text without backticks,
    before any text, further blocks included) gives exactly [body], which
    has no fence marker in it, and the outcome is the command [body], or, for
    an empty body, a message; so the fenced block [```echo hi```] gives the
    command text [echo hi].  A buffer without a fence marker, and more
    generally a buffer in which the lexer finds no fenced block, gives
    nothing, and the outcome is a message whose text is the whole buffer.  A
    request that is not cancelled and whose agent call resolves ends on the
    branch so chosen. *)
Theorem extraction_examples :
  (forall (lexer : string -> list Token) (buffer : string) (tok : Token)
          (rest : list Token),
      filter isCode (lexer buffer) = tok :: rest ->
      codeBlock lexer buffer = Some (JS.replaceAll fence "" (raw tok)))
  /\ (forall pre body post,
        plain pre = true ->
        plain body = true ->
        let buffer := pre ++ fence ++ body ++ fence ++ post in
        codeBlock Marked.lexer buffer = Some body
        /\ JS.includes fence body = false
        /\ outcomeOf Marked.lexer buffer
           = match body with
             | EmptyString => Message buffer
             | String _ _ => Command body
             end)
  /\ (forall pre post,
        plain pre = true ->
        codeBlock Marked.lexer (pre ++ "```echo hi```" ++ post) = Some "echo hi"
        /\ outcomeOf Marked.lexer (pre ++ "```echo hi```" ++ post) = Command "echo hi"
        /\ JS.includes fence "echo hi" = false)
  /\ (forall buffer,
        JS.includes fence buffer = false ->
        codeBlock Marked.lexer buffer = None
        /\ outcomeOf Marked.lexer buffer = Message buffer)
  /\ (forall buffer,
        filter isCode (Marked.lexer buffer) = [] ->
        codeBlock Marked.lexer buffer = None
        /\ outcomeOf Marked.lexer buffer = Message buffer)
  /\ (forall chunks w,
        initialized w ->
        cancelled w = false ->
        fst (acceptInput Marked.lexer (streams chunks resolved) w)
        = Ok {| returnedAt := atEnd (outcomeOf Marked.lexer (text chunks));
                buffer := text chunks |}).
Proof.
  assert (forall pre body post,
             plain pre = true -> plain body = true ->
             codeBlock Marked.lexer (pre ++ fence ++ body ++ fence ++ post) = Some body)
    as Hblock.
  { intros pre body post Hpre Hbody.
    destruct (@lexer_first_block pre body post Hpre Hbody) as (rest & Hl).
    rewrite (codeBlock_first _ _ Hl). cbn [raw Marked.code].
    now rewrite (replaceAll_block body Hbody). }
  assert (forall buffer,
             filter isCode (Marked.lexer buffer) = [] ->
             codeBlock Marked.lexer buffer = None
             /\ outcomeOf Marked.lexer buffer = Message buffer) as Hnone.
  { intros buffer Hn. pose proof (codeBlock_none _ _ Hn) as Hcb.
    split; [exact Hcb|]. unfold outcomeOf. now rewrite Hcb. }
  split; [|split; [|split; [|split; [|split]]]].
  - intros lexer buffer tok rest Htok. exact (codeBlock_first _ _ Htok).
  - intros pre body post Hpre Hbody. cbn zeta.
    pose proof (Hblock pre body post Hpre Hbody) as Hcb.
    split; [exact Hcb|]. split; [exact (plain_no_fence body Hbody)|].
    unfold outcomeOf. rewrite Hcb. destruct body; reflexivity.
  - intros pre post Hpre.
    pose proof (Hblock pre "echo hi" post Hpre eq_refl) as Hcb.
    change (pre ++ fence ++ "echo hi" ++ fence ++ post)
      with (pre ++ "```echo hi```" ++ post) in Hcb.
    split; [exact Hcb|]. split; [|reflexivity].
    unfold outcomeOf. now rewrite Hcb.
  - intros buffer Hn. apply Hnone. now apply no_fence_no_code.
  - exact Hnone.
  - intros chunks w Hinit Hc.
    exact (proj1 (@completed_spec Marked.lexer chunks w Hinit Hc)).
Qed.

Lemma extraction_examples_witness :
  plain "Run " = true
  /\ outcomeOf Marked.lexer "Run ```echo hi``` in the terminal." = Command "echo hi"
  /\ plain "ls -la" = true
  /\ outcomeOf Marked.lexer "Try ```ls -la``` or ```pwd```." = Command "ls -la"
  /\ JS.includes fence "no such command" = false
  /\ filter isCode (Marked.lexer "no such command") = []
  /\ outcomeOf Marked.lexer "no such command" = Message "no such command"
  /\ initialized typed /\ cancelled typed = false
  /\ fst (acceptInput Marked.lexer answering typed)
     = Ok {| returnedAt := atEnd (Command "echo hi"); buffer := "```echo hi```" |}.
Proof.
  destruct extraction_examples as (_ & H1 & H2 & H3 & _ & H5).
  split; [reflexivity|].
  split; [exact (proj1 (proj2 (H2 "Run " " in the terminal." eq_refl)))|].
  split; [reflexivity|].
  split; [exact (proj2 (proj2 (H1 "Try " "ls -la" " or ```pwd```." eq_refl eq_refl)))|].
  split; [reflexivity|]. split; [reflexivity|].
  split; [exact (proj2 (H3 "no such command" eq_refl))|].
  split; [exact typed_initialized|]. split; [reflexivity|].
  exact (H5 [chunk "```echo "; note "thinking"; chunk "hi```"] typed
            typed_initialized eq_refl).
Defined.

(** C9.  The command is the raw text of the first code token with every
    fence marker removed, whatever else the raw text holds: no fence marker
    is left in it, and a fenced block with an info string,
    [```info LF body```], gives the command [info LF body], which begins
    with the info string and is not just the body.  (Any lexer; the stripped
    text is not empty.)  A request that is not cancelled and whose agent call
    resolves ends on the command branch with that text. *)
Theorem strip_keeps_info_string (lexer : string -> list Token) (buffer : string)
  (tok : Token) (rest : list Token) :
  filter isCode (lexer buffer) = tok :: rest ->
  JS.replaceAll fence "" (raw tok) <> "" ->
  let command := JS.replaceAll fence "" (raw tok) in
  outcomeOf lexer buffer = Command command
  /\ JS.includes fence command = false
  /\ (forall info body,
         plain info = true -> plain body = true ->
         raw tok = fence ++ info ++ LF ++ body ++ fence ->
         command = info ++ LF ++ body)
  /\ (forall chunks w,
         text chunks = buffer ->
         initialized w ->
         cancelled w = false ->
         fst (acceptInput lexer (streams chunks resolved) w)
         = Ok {| returnedAt := atEnd (Command command); buffer := buffer |}).
Proof.
  intros Htok Hne. cbn zeta.
  assert (outcomeOf lexer buffer = Command (JS.replaceAll fence "" (raw tok))) as Ho.
  { unfold outcomeOf. rewrite (codeBlock_first _ _ Htok).
    destruct (JS.replaceAll fence "" (raw tok)); [contradiction | reflexivity]. }
  split; [exact Ho|]. split; [apply replaceAll_no_fence|]. split.
  - intros info body Hi Hb ->.
    rewrite replaceAll_fence.
    rewrite (@replaceAll_plain info _ Hi).
    change (LF ++ body ++ fence) with (String (Ascii.ascii_of_nat 10) (body ++ fence)).
    rewrite replaceAll_char by reflexivity.
    rewrite (@replaceAll_plain body _ Hb).
    change (JS.replaceAll fence "" fence) with "".
    now rewrite append_nil_r.
  - intros chunks w <- Hinit Hc.
    rewrite (proj1 (@completed_spec lexer chunks w Hinit Hc)). now rewrite Ho.
Qed.

Lemma strip_keeps_info_string_witness :
  filter isCode (Marked.lexer ("```bash" ++ LF ++ "echo hi" ++ LF ++ "```"))
  = [{| type := "code"; raw := "```bash" ++ LF ++ "echo hi" ++ LF ++ "```" |}]
  /\ JS.replaceAll fence "" ("```bash" ++ LF ++ "echo hi" ++ LF ++ "```") <> ""
  /\ outcomeOf Marked.lexer ("```bash" ++ LF ++ "echo hi" ++ LF ++ "```")
     = Command ("bash" ++ LF ++ "echo hi" ++ LF)
  /\ initialized typed /\ cancelled typed = false
  /\ fst (acceptInput Marked.lexer (streams bash resolved) typed)
     = Ok {| returnedAt := atEnd (Command ("bash" ++ LF ++ "echo hi" ++ LF));
             buffer := "```bash" ++ LF ++ "echo hi" ++ LF ++ "```" |}.
Proof.
  assert (JS.replaceAll fence "" ("```bash" ++ LF ++ "echo hi" ++ LF ++ "```") <> "")
    as Hne by (vm_compute; discriminate).
  destruct (@strip_keeps_info_string Marked.lexer
              ("```bash" ++ LF ++ "echo hi" ++ LF ++ "```")
              {| type := "code"; raw := "```bash" ++ LF ++ "echo hi" ++ LF ++ "```" |}
              [] eq_refl Hne) as (H1 & _ & _ & H4).
  split; [reflexivity|]. split; [exact Hne|]. split; [exact H1|].
  split; [exact typed_initialized|]. split; [reflexivity|].
  exact (H4 bash typed eq_refl typed_initialized eq_refl).
Defined.

(** Without a widget (the sink "may be absent", in the spec's words) a
    buffer of two fence markers takes the message branch and sets the flag,
    and the [renderMessage] call is silently dropped. *)
Lemma empty_block_not_rendered_without_widget :
  initialized constructed /\ cancelled constructed = false
  /\ filter isCode (Marked.lexer (text [chunk "```"; chunk "```"]))
     = [{| type := "code"; raw := "``````" |}]
  /\ JS.replaceAll fence "" "``````" = ""
  /\ fst (acceptInput Marked.lexer (streams [chunk "```"; chunk "```"] resolved)
            constructed)
     = Ok {| returnedAt := atEnd (Message "``````"); buffer := "``````" |}
  /\ renders (since constructed
                (snd (acceptInput Marked.lexer
                        (streams [chunk "```"; chunk "```"] resolved) constructed)))
     = [].
Proof.
  split; [|repeat split].
  repeat split; try reflexivity. eexists; reflexivity.
Qed.

(** C10.  If the raw text of the first code token strips to the empty
    string, [acceptInput] takes the message branch although a code token was
    there: the last-response-type flag is set to [OnlyMessages] and the
    whole buffer is rendered as a message on the attached widget.  (Any
    lexer; request not cancelled, agent call resolved.)  The premise is about
    the raw text of the token: it is met by a token made of fence markers
    only, which the lexer of the spec's description gives for a buffer of two
    markers; a block whose markers stand on lines of their own strips to a
    line feed and is a command, see [blank_block_is_a_command]. *)
Theorem empty_code_block_is_a_message (lexer : string -> list Token)
  (chunks : list IChatProgress) (w : World) (tok : Token) (rest : list Token) :
  initialized w ->
  cancelled w = false ->
  filter isCode (lexer (text chunks)) = tok :: rest ->
  JS.replaceAll fence "" (raw tok) = "" ->
  let w' := snd (acceptInput lexer (streams chunks resolved) w) in
  let id := (_accessibilityRequestId (this w) + 1)%N in
  fst (acceptInput lexer (streams chunks resolved) w)
  = Ok {| returnedAt := atEnd (Message (text chunks)); buffer := text chunks |}
  /\ lastResponseType (contextKeys (host w')) = Some OnlyMessages
  /\ (attached w ->
      renders (since w w')
      = [widget (Widget.renderMessage (text chunks) id (uuid (uuids (host w))))]).
Proof.
  intros Hinit Hc Htok He. cbn zeta.
  destruct (@completed_spec lexer chunks w Hinit Hc) as (Hr & Hs & Ht).
  assert (outcomeOf lexer (text chunks) = Message (text chunks)) as Ho.
  { unfold outcomeOf. now rewrite (codeBlock_first _ _ Htok), He. }
  rewrite Hr, Hs, Ht, Ho. split; [reflexivity|]. split; [reflexivity|].
  intros (wd & Hwd). unfold sink. now rewrite Hwd.
Qed.

Lemma empty_code_block_is_a_message_witness :
  initialized typed /\ cancelled typed = false
  /\ filter isCode (Marked.lexer (text [chunk "```"; chunk "```"]))
     = [{| type := "code"; raw := "``````" |}]
  /\ JS.replaceAll fence "" "``````" = ""
  /\ attached typed
  /\ fst (acceptInput Marked.lexer (streams [chunk "```"; chunk "```"] resolved) typed)
     = Ok {| returnedAt := atEnd (Message "``````"); buffer := "``````" |}
  /\ lastResponseType
       (contextKeys
          (host (snd (acceptInput Marked.lexer
                        (streams [chunk "```"; chunk "```"] resolved) typed))))
     = Some OnlyMessages
  /\ renders (since typed
                (snd (acceptInput Marked.lexer
                        (streams [chunk "```"; chunk "```"] resolved) typed)))
     = [widget (Widget.renderMessage "``````" 1 (uuid 0))].
Proof.
  split; [exact typed_initialized|]. split; [reflexivity|].
  split; [reflexivity|]. split; [reflexivity|]. split; [exact typed_attached|].
  destruct (@empty_code_block_is_a_message Marked.lexer [chunk "```"; chunk "```"] typed
              {| type := "code"; raw := "``````" |} []
              typed_initialized eq_refl eq_refl eq_refl) as (H1 & H2 & H3).
  split; [exact H1|]. split; [exact H2 | exact (H3 typed_attached)].
Defined.

(** A fenced block with nothing between its markers but the line feed
    after the opening one: the stripped text is that line feed, which is not
    the empty string, so such a block is rendered as a command. *)
Lemma blank_block_is_a_command (lexer : string -> list Token) (buffer : string)
  (tok : Token) (rest : list Token) :
  filter isCode (lexer buffer) = tok :: rest ->
  raw tok = fence ++ LF ++ fence ->
  outcomeOf lexer buffer = Command LF.
Proof.
  intros Htok Hraw. unfold outcomeOf.
  rewrite (codeBlock_first _ _ Htok), Hraw. reflexivity.
Qed.

(** ** Histories *)

(** Apart from [cancel] and [acceptInput], nothing writes the fields the
    constructor assigned. *)
Lemma step_assigned (lexer : string -> list Token) (w : World) (c : Call) :
  match c with callCancel | callAcceptInput _ => False | _ => True end ->
  assigned (step lexer w c) = assigned w.
Proof.
  intros Hc. open_world w.
  destruct c as [d| | | |run| | | | | |s|f1 f2 f3 f4]; try contradiction;
    unfold assigned, step.
  - unfold layout, bind, getValue_ExperimentalInlineChat, gets, widgetCall, rawWidget; cbn.
    destruct flag; cbn; [|reflexivity].
    destruct cw as [[dr [wd|]]|]; reflexivity.
  - unfold xtermReady, bind, getValue_ExperimentalInlineChat, gets; cbn.
    destruct flag; reflexivity.
  - unfold chatWidget, buildWidget, bind, gets; cbn.
    destruct cw as [[[|] [wd|]]|]; cbn; try reflexivity;
      destruct dom; cbn; try reflexivity; destruct ld; reflexivity.
  - unfold acceptCommand, widgetCall, rawWidget; cbn.
    destruct cw as [[dr [wd|]]|]; reflexivity.
  - unfold reveal, widgetCall, rawWidget; cbn.
    destruct cw as [[dr [wd|]]|]; reflexivity.
  - unfold rawWidget, onDidFocus, bind, gets; cbn.
    destruct cw as [[dr [wd|]]|]; cbn; try reflexivity. destruct det; reflexivity.
  - unfold rawWidget, onDidBlur, bind; cbn.
    destruct cw as [[dr [wd|]]|]; reflexivity.
  - unfold agentsChanged, bind, gets, ctxSet; cbn.
    destruct al; [|reflexivity]. destruct ag; [|reflexivity].
    destruct k2; reflexivity.
  - reflexivity.
  - reflexivity.
Qed.

Lemma holds_assigned (n : nat) (b : bool) (w w' : World) :
  assigned w' = assigned w -> holds n b w -> holds n b w'.
Proof.
  unfold assigned, holds, initialized. intros E. injection E as E1 E2 E3 E4.
  rewrite E1, E2, E3, E4. auto.
Qed.

Lemma holds_cancel (n : nat) (b : bool) (w : World) :
  holds n b w -> holds n true (snd (cancel w)).
Proof.
  intros ((H1 & H2 & H3 & _) & f & Hf & _). open_world w.
  cbn in H1, H2, H3, Hf. subst. unfold cancel, holds, initialized. cbn.
  repeat split; eauto.
Qed.

Lemma holds_acceptInput (lexer : string -> list Token) (run : AgentRun)
  (n : nat) (b : bool) (w : World) :
  holds n b w -> holds n b (snd (acceptInput lexer run w)).
Proof.
  intros (Hinit & f & Hf & Hb).
  destruct (acceptInput_spec lexer run Hinit Hf) as (w' & Hrun & E).
  rewrite Hrun. cbn [snd].
  destruct Hinit as (H1 & H2 & H3 & _).
  destruct (effect_keys E) as (K1 & K2 & K3).
  split.
  - unfold initialized. rewrite K1, K2, K3, (effect_token E). eauto.
  - eexists. split; [exact (effect_token E)|].
    intros ->. unfold finalFlag. cbn. rewrite (Hb eq_refl).
    apply cancelledAfter_cancelled.
Qed.

Lemma holds_step (lexer : string -> list Token) (n : nat) (b : bool)
  (w : World) (c : Call) :
  holds n b w -> holds n b (step lexer w c).
Proof.
  intros H.
  destruct c as [d| | | |run| | | | | |s|f1 f2 f3 f4];
    try (eapply holds_assigned; [apply step_assigned; exact I | exact H]).
  - cbn [step]. destruct H as (Hinit & f & Hf & Hb).
    pose proof (@holds_cancel n b w (conj Hinit (ex_intro _ f (conj Hf Hb))))
      as (Hinit' & f' & Hf' & Hb').
    split; [exact Hinit'|]. exists f'. split; [exact Hf'|]. intros _. now apply Hb'.
  - now apply holds_acceptInput.
Qed.

Lemma holds_history (lexer : string -> list Token) (n : nat) (b : bool)
  (cs : list Call) :
  forall w, holds n b w -> holds n b (history lexer w cs).
Proof.
  induction cs as [|c cs IH]; intros w H; [exact H|].
  cbn [history fold_left]. apply IH. now apply holds_step.
Qed.

Lemma holds_create (h : Host) :
  ExperimentalInlineChat h = true -> holds (tokens h) false (create h).
Proof.
  destruct h as [flag ag al dom det act ck uu tk]. cbn. intros ->.
  unfold create, constructor, bind, getValue_ExperimentalInlineChat, gets,
    modify, ctxSet, newCancellationTokenSource, holds, initialized; cbn.
  destruct ag; cbn; repeat split; eauto; eexists; (split; [reflexivity | discriminate]).
Qed.

Lemma history_app (lexer : string -> list Token) (w : World) (a b : list Call) :
  history lexer w (a ++ b) = history lexer (history lexer w a) b.
Proof. apply fold_left_app. Qed.

(** Once [cancel()] was called, the token stays cancelled whatever happens
    next, and it is still the token the constructor created. *)
Lemma cancel_sticks (lexer : string -> list Token) (h : Host)
  (before after : list Call) :
  ExperimentalInlineChat h = true ->
  holds (tokens h) true
    (history lexer (create h) (before ++ callCancel :: after)).
Proof.
  intros Hflag.
  rewrite history_app. cbn [history fold_left].
  apply (@holds_history lexer (tokens h) true after).
  apply (@holds_cancel (tokens h) false).
  apply holds_history. now apply holds_create.
Qed.

Lemma progressUpdates_finished_cancelled (lexer : string -> list Token)
  (run : AgentRun) (w : World) (src : CancellationTokenSource) :
  finalFlag run src = true -> progressUpdates (finished lexer run w src) = [].
Proof.
  intros Hf. unfold finished, sink. rewrite Hf.
  destruct (settled run); [reflexivity|]. destruct (rawWidget w); reflexivity.
Qed.

(** C2 fails as stated: after [cancel()], a request whose agent invocation
    raises does not get to the cancellation check; it returns from the catch
    block, and (unlike a return at the check) resets the active-request
    flag. *)
Lemma after_cancel_agent_error_returns_in_catch :
  let w := history Marked.lexer typed [callCancel] in
  cancelled w = true
  /\ settled failing = rejected
  /\ fst (acceptInput Marked.lexer failing w)
     = Ok {| returnedAt := inCatch; buffer := "" |}
  /\ (forall buf,
        fst (acceptInput Marked.lexer failing w)
        <> Ok {| returnedAt := atCancellationCheck; buffer := buf |})
  /\ hasActiveRequest (snd (acceptInput Marked.lexer failing w)) = Some false.
Proof.
  cbn zeta. split; [reflexivity|]. split; [reflexivity|]. split; [reflexivity|].
  split; [|reflexivity].
  intros buf. vm_compute. discriminate.
Qed.

Lemma cancelCalled_in (evs : list Pending) :
  existsb isCancelCalled evs = true -> In cancelCalled evs.
Proof.
  intros H. apply existsb_exists in H as ([p|] & Hin & Hp); [discriminate | exact Hin].
Qed.

Lemma holds_cancelled_request (lexer : string -> list Token) (run : AgentRun)
  (n : nat) (b : bool) (w : World) :
  holds n b w ->
  In cancelCalled (pending run) ->
  holds n true (snd (acceptInput lexer run w)).
Proof.
  intros (Hinit & f & Hf & _) Hin.
  destruct (acceptInput_spec lexer run Hinit Hf) as (w' & Hrun & E).
  rewrite Hrun. cbn [snd].
  destruct (effect_keys E) as (K1 & K2 & K3).
  destruct Hinit as (H1 & H2 & H3 & _).
  split.
  - unfold initialized. rewrite K1, K2, K3, (effect_token E). eauto.
  - eexists. split; [exact (effect_token E)|].
    intros _. unfold finalFlag. now apply cancelledAfter_cancelCalled.
Qed.

(** Once [cancel()] was called, as a call of its own or while a request was
    pending, the token stays cancelled whatever happens next. *)
Lemma cancelled_for_good (lexer : string -> list Token) (cs : list Call) :
  forall (n : nat) (b : bool) (w : World),
    holds n b w ->
    existsb cancels cs = true ->
    holds n true (history lexer w cs).
Proof.
  induction cs as [|c cs IH]; intros n b w H Hcs; [discriminate|].
  cbn [existsb] in Hcs. cbn [history fold_left]. fold (history lexer (step lexer w c) cs).
  destruct (cancels c) eqn:Hc.
  - apply holds_history.
    destruct c as [d| | | |run| | | | | |s|f1 f2 f3 f4]; try discriminate; cbn [step].
    + exact (holds_cancel H).
    + apply (holds_cancelled_request lexer run H). now apply cancelCalled_in.
  - apply (IH n b); [now apply holds_step | exact Hcs].
Qed.

(** C2, amended.  After [cancel()] has been called once on a controller
    (constructed with the feature enabled), as a call of its own or while an
    earlier request was pending, and whatever else was called before or
    after it, every later [acceptInput] hands [invokeAgent] the token the
    constructor created, already cancelled; its progress callback appends
    nothing to the buffer and forwards nothing; no command and no message is
    rendered.  It returns at the cancellation check when the agent invocation
    resolves, leaving the active-request flag set, and from the catch block
    when it raises, which resets the flag. *)
Theorem cancel_is_permanent (lexer : string -> list Token) (h : Host)
  (cs : list Call) (run : AgentRun) :
  ExperimentalInlineChat h = true ->
  existsb cancels cs = true ->
  let w := history lexer (create h) cs in
  let w' := snd (acceptInput lexer run w) in
  let cancelledToken := {| tokenId := tokens h; isCancellationRequested := true |} in
  _cancellationTokenSource (this (create h))
  = Some {| tokenId := tokens h; isCancellationRequested := false |}
  /\ _cancellationTokenSource (this w) = Some cancelledToken
  /\ In (invokeAgent "terminal" (requestProps w) cancelledToken) (since w w')
  /\ fst (acceptInput lexer run w)
     = Ok {| returnedAt := match settled run with
                           | resolved => atCancellationCheck
                           | rejected => inCatch
                           end;
             buffer := "" |}
  /\ progressUpdates (since w w') = []
  /\ renders (since w w') = []
  /\ hasActiveRequest w'
     = Some match settled run with
            | resolved => true
            | rejected => false
            end.
Proof.
  intros Hflag Hcs. cbn zeta.
  pose proof (@cancelled_for_good lexer cs (tokens h) false (create h)
                (holds_create h Hflag) Hcs) as (Hinit & f & Hf & Hb).
  rewrite (Hb eq_refl) in Hf. clear f Hb.
  set (w := history lexer (create h) cs) in *.
  destruct (acceptInput_spec lexer run Hinit Hf) as (w' & Hrun & E).
  rewrite Hrun. cbn [fst snd].
  rewrite (since_app w w' _ (effect_trace E)).
  assert (finalFlag run {| tokenId := tokens h; isCancellationRequested := true |} = true)
    as Hfl by apply cancelledAfter_cancelled.
  split; [|split; [|split; [|split; [|split; [|split]]]]].
  - destruct (holds_create h Hflag) as (_ & f & Hc & _).
    destruct h as [flag ag al dom det act ck uu tk]. cbn in Hflag. subst flag.
    destruct ag; reflexivity.
  - exact Hf.
  - apply in_or_app. left. unfold started.
    apply in_or_app. right. apply in_or_app. right. left. reflexivity.
  - unfold finalReturn, finalBuffer. rewrite Hfl. cbn [isCancellationRequested].
    rewrite accepted_cancelled. destruct (settled run); reflexivity.
  - rewrite !progressUpdates_app, progressUpdates_started.
    rewrite (progressUpdates_finished_cancelled lexer run w _ Hfl).
    unfold streamed, sink. cbn [isCancellationRequested].
    rewrite accepted_cancelled. destruct (rawWidget w); reflexivity.
  - rewrite !renders_app, renders_started, renders_streamed.
    unfold finished, sink. rewrite Hfl.
    destruct (settled run); [reflexivity|]. destruct (rawWidget w); reflexivity.
  - rewrite (effect_active E), Hfl. destruct (settled run); reflexivity.
Qed.

Lemma cancel_is_permanent_witness :
  ExperimentalInlineChat (sampleHost true) = true
  /\ existsb cancels
       [callXtermReady; callChatWidget; userTypes "list files"; callCancel;
        callAcceptInput failing; userTypes "again"] = true
  /\ fst (acceptInput Marked.lexer answering
            (history Marked.lexer constructed
               [callXtermReady; callChatWidget; userTypes "list files"; callCancel;
                callAcceptInput failing; userTypes "again"]))
     = Ok {| returnedAt := atCancellationCheck; buffer := "" |}
  /\ existsb cancels
       [callXtermReady; callChatWidget; userTypes "list files";
        callAcceptInput interrupted; userTypes "again"] = true
  /\ fst (acceptInput Marked.lexer answering
            (history Marked.lexer constructed
               [callXtermReady; callChatWidget; userTypes "list files";
                callAcceptInput interrupted; userTypes "again"]))
     = Ok {| returnedAt := atCancellationCheck; buffer := "" |}
  /\ hasActiveRequest
       (snd (acceptInput Marked.lexer answering
               (history Marked.lexer constructed
                  [callXtermReady; callChatWidget; userTypes "list files";
                   callAcceptInput interrupted; userTypes "again"])))
     = Some true.
Proof.
  split; [reflexivity|]. split; [reflexivity|].
  split.
  { exact (proj1 (proj2 (proj2 (proj2
             (@cancel_is_permanent Marked.lexer (sampleHost true)
                [callXtermReady; callChatWidget; userTypes "list files"; callCancel;
                 callAcceptInput failing; userTypes "again"] answering
                eq_refl eq_refl))))). }
  split; [reflexivity|].
  destruct (@cancel_is_permanent Marked.lexer (sampleHost true)
              [callXtermReady; callChatWidget; userTypes "list files";
               callAcceptInput interrupted; userTypes "again"] answering
              eq_refl eq_refl) as (_ & _ & _ & H4 & _ & _ & H7).
  split; [exact H4 | exact H7].
Defined.

(** ** The feature flag *)

Lemma flagBlind_ret (A : Type) (a : A) : flagBlind (ret a).
Proof. intros b w. reflexivity. Qed.

Lemma flagBlind_bind (A B : Type) (m : M A) (k : A -> M B) :
  flagBlind m -> (forall a, flagBlind (k a)) -> flagBlind (bind m k).
Proof.
  intros Hm Hk b w. unfold bind. rewrite Hm.
  destruct (m w) as [[a|e] w1]; cbn [fst snd]; [apply Hk | reflexivity].
Qed.

Lemma flagBlind_emit (e : Event) : flagBlind (modify (emit e)).
Proof. intros b w. reflexivity. Qed.

Lemma flagBlind_ctxSet (field : TerminalChatController -> option RawContextKey)
  (name : string) (v : bool) : flagBlind (ctxSet field name v).
Proof.
  intros b w. unfold ctxSet. cbn [setFlag set_host this].
  destruct (field (this w)) as [[| |]|]; reflexivity.
Qed.

Lemma flagBlind_ctxSetLastResponseType (v : InlineChatResponseTypes) :
  flagBlind (ctxSetLastResponseType v).
Proof.
  intros b w. unfold ctxSetLastResponseType. cbn [setFlag set_host this].
  destruct (_ctxLastResponseType (this w)); reflexivity.
Qed.

Lemma flagBlind_token : flagBlind token.
Proof.
  intros b w. unfold token. cbn [setFlag set_host this].
  destruct (_cancellationTokenSource (this w)); reflexivity.
Qed.

Lemma flagBlind_generateUuid : flagBlind generateUuid.
Proof. intros b w. reflexivity. Qed.

Lemma flagBlind_widgetCall (c : Widget.Call) : flagBlind (widgetCall c).
Proof.
  intros b w. unfold widgetCall, rawWidget. cbn [setFlag set_host this].
  destruct (_chatWidget (this w)) as [[dr [wd|]]|]; reflexivity.
Qed.

Lemma flagBlind_widgetInput : flagBlind widgetInput.
Proof.
  intros b w. unfold widgetInput, rawWidget. cbn [setFlag set_host this].
  destruct (_chatWidget (this w)) as [[dr [wd|]]|]; reflexivity.
Qed.

Lemma flagBlind_widgetSetValue : flagBlind widgetSetValue.
Proof.
  intros b w. unfold widgetSetValue, rawWidget. cbn [setFlag set_host this].
  destruct (_chatWidget (this w)) as [[dr [wd|]]|]; reflexivity.
Qed.

Lemma flagBlind_cancellationRequested : flagBlind cancellationRequested.
Proof. intros b w. reflexivity. Qed.

Lemma flagBlind_counter :
  flagBlind (modify (set_this (fun c => with_accessibilityRequestId
                                          (_accessibilityRequestId c + 1)%N c))).
Proof. intros b w. reflexivity. Qed.

Lemma flagBlind_getCounter :
  flagBlind (gets (fun w => _accessibilityRequestId (this w))).
Proof. intros b w. reflexivity. Qed.

Lemma flagBlind_cancelCalled : flagBlind (modify (fun w => snd (cancel w))).
Proof.
  intros b w. unfold modify, cancel. cbn [setFlag set_host this].
  destruct (_cancellationTokenSource (this w)); reflexivity.
Qed.

Lemma flagBlind_progressCallback (message : string) (p : IChatProgress) :
  flagBlind (progressCallback message p).
Proof.
  unfold progressCallback.
  apply flagBlind_bind; [apply flagBlind_cancellationRequested | intros c].
  destruct c; [apply flagBlind_ret|].
  apply flagBlind_bind; [apply flagBlind_widgetCall | intros _; apply flagBlind_ret].
Qed.

Lemma flagBlind_deliver (evs : list Pending) :
  forall message, flagBlind (deliver message evs).
Proof.
  induction evs as [|[p|] evs IH]; intros message; cbn [deliver].
  - apply flagBlind_ret.
  - apply flagBlind_bind; [apply flagBlind_progressCallback | intros m; apply IH].
  - apply flagBlind_bind; [apply flagBlind_cancelCalled | intros _; apply IH].
Qed.

Lemma flagBlind_request : flagBlind acceptInput_request.
Proof.
  unfold acceptInput_request.
  repeat (apply flagBlind_bind; [|intros ?]);
    auto using flagBlind_ret, flagBlind_emit, flagBlind_ctxSet, flagBlind_token,
      flagBlind_generateUuid, flagBlind_widgetInput, flagBlind_widgetSetValue.
Qed.

Lemma flagBlind_catch : flagBlind acceptInput_catch.
Proof.
  unfold acceptInput_catch.
  repeat (apply flagBlind_bind; [|intros ?]);
    auto using flagBlind_ret, flagBlind_ctxSet, flagBlind_widgetCall.
Qed.

Lemma flagBlind_respond (lexer : string -> list Token) (requestId : Uuid)
  (message : string) :
  flagBlind (acceptInput_respond lexer requestId message).
Proof.
  unfold acceptInput_respond.
  apply flagBlind_bind; [apply flagBlind_counter | intros _].
  apply flagBlind_bind; [apply flagBlind_cancellationRequested | intros c].
  destruct c; [apply flagBlind_ret|].
  apply flagBlind_bind; [apply flagBlind_getCounter | intros id].
  apply flagBlind_bind.
  - destruct (JS.truthy (codeBlock lexer message));
      repeat (apply flagBlind_bind; [|intros ?]);
      auto using flagBlind_ret, flagBlind_widgetCall, flagBlind_ctxSetLastResponseType.
  - intros o.
    repeat (apply flagBlind_bind; [|intros ?]);
      auto using flagBlind_ret, flagBlind_ctxSet, flagBlind_widgetCall.
Qed.

(** [acceptInput] never looks at the setting. *)
Lemma flagBlind_acceptInput (lexer : string -> list Token) (run : AgentRun) :
  flagBlind (acceptInput lexer run).
Proof.
  unfold acceptInput.
  apply flagBlind_bind; [apply flagBlind_request | intros requestId].
  apply flagBlind_bind; [apply flagBlind_deliver | intros message].
  apply flagBlind_bind; [|intros at_; apply flagBlind_ret].
  destruct (settled run); [apply flagBlind_respond | apply flagBlind_catch].
Qed.

(** C4 fails as stated: [acceptInput] does not test the setting.  On a controller
    constructed while the setting was off it calls the accessibility
    service; on one constructed while it was on, turning the setting off
    afterwards changes nothing: the request is made and rendered. *)
Lemma acceptInput_is_not_gated :
  ExperimentalInlineChat (host disabled) = false
  /\ trace disabled = []
  /\ trace (snd (acceptInput Marked.lexer answering disabled)) = [acceptRequest]
  /\ snd (acceptInput Marked.lexer answering disabled) <> disabled
  /\ (let w := history Marked.lexer typed [hostChanges false true true false] in
      ExperimentalInlineChat (host w) = false
      /\ renders (since w (snd (acceptInput Marked.lexer answering w)))
         = [widget (Widget.renderTerminalCommand "echo hi" 1)]
      /\ _accessibilityRequestId (this (snd (acceptInput Marked.lexer answering w)))
         <> _accessibilityRequestId (this w)).
Proof.
  cbn zeta.
  split; [reflexivity|]. split; [reflexivity|]. split; [reflexivity|].
  split; [vm_compute; discriminate|].
  split; [reflexivity|]. split; [reflexivity|].
  vm_compute. discriminate.
Qed.

(** C4, amended.  When the experimental inline-chat setting is off, [layout]
    and [xtermReady] return at once: the world after the call is the world
    before it, so no field of the controller changed and no collaborator was
    called.  [acceptInput] is not gated: it runs the same whatever the
    setting is. *)
Theorem disabled_hooks_are_noops (lexer : string -> list Token) (d : IDimension)
  (run : AgentRun) (w : World) :
  ExperimentalInlineChat (host w) = false ->
  layout d w = (Ok tt, w)
  /\ xtermReady w = (Ok tt, w)
  /\ (forall b,
         acceptInput lexer run (setFlag b w)
         = (fst (acceptInput lexer run w), setFlag b (snd (acceptInput lexer run w)))).
Proof.
  intros Hflag. split; [|split].
  - unfold layout, bind, getValue_ExperimentalInlineChat, gets. now rewrite Hflag.
  - unfold xtermReady, bind, getValue_ExperimentalInlineChat, gets. now rewrite Hflag.
  - intros b. apply flagBlind_acceptInput.
Qed.

Lemma disabled_hooks_are_noops_witness :
  ExperimentalInlineChat (host disabled) = false
  /\ layout {| width := 80; height := 24 |} disabled = (Ok tt, disabled)
  /\ xtermReady disabled = (Ok tt, disabled).
Proof.
  split; [reflexivity|].
  destruct (@disabled_hooks_are_noops Marked.lexer {| width := 80; height := 24 |}
              answering disabled eq_refl) as (H1 & H2 & _).
  split; [exact H1 | exact H2].
Defined.

(** ** Controllers as the constructor leaves them *)

Lemma acceptInput_unassigned (lexer : string -> list Token) (run : AgentRun) (w : World) :
  _ctxHasActiveRequest (this w) = None ->
  acceptInput lexer run w
  = (Throw (TypeError "_ctxHasActiveRequest"), emit acceptRequest w).
Proof.
  intros H. unfold acceptInput, acceptInput_request, bind, modify, ctxSet. cbn.
  now rewrite H.
Qed.

Lemma cancel_unassigned (w : World) :
  _cancellationTokenSource (this w) = None ->
  cancel w = (Throw (TypeError "_cancellationTokenSource"), w).
Proof. intros H. unfold cancel. now rewrite H. Qed.

Lemma unassigned_step (lexer : string -> list Token) (w : World) (c : Call) :
  unassigned w -> unassigned (step lexer w c).
Proof.
  intros H. unfold unassigned in *.
  destruct c as [d| | | |run| | | | | |s|f1 f2 f3 f4];
    try (rewrite step_assigned; [exact H | exact I]).
  - cbn [step]. rewrite cancel_unassigned; [exact H|]. now injection H.
  - cbn [step]. injection H as H1 H2 H3 H4.
    rewrite acceptInput_unassigned by exact H1. cbn. unfold assigned. cbn.
    now rewrite H1, H2, H3, H4.
Qed.

Lemma initialized_step (lexer : string -> list Token) (w : World) (c : Call) :
  initialized w -> initialized (step lexer w c).
Proof.
  intros H. pose proof H as (_ & _ & _ & [n f] & Hsrc).
  apply (@holds_step lexer n false w c).
  split; [exact H|]. exists f. split; [exact Hsrc | discriminate].
Qed.

Lemma asConstructed_step (lexer : string -> list Token) (w : World) (c : Call) :
  asConstructed w -> asConstructed (step lexer w c).
Proof.
  intros [H|H]; [left; now apply initialized_step | right; now apply unassigned_step].
Qed.

Lemma asConstructed_history (lexer : string -> list Token) (cs : list Call) :
  forall w, asConstructed w -> asConstructed (history lexer w cs).
Proof.
  induction cs as [|c cs IH]; intros w H; [exact H|].
  cbn [history fold_left]. apply IH. now apply asConstructed_step.
Qed.

Lemma create_disabled (h : Host) :
  ExperimentalInlineChat h = false ->
  create h = {| this := blank; host := h; trace := [] |}.
Proof.
  intros H. unfold create, constructor, bind, getValue_ExperimentalInlineChat, gets.
  cbn. now rewrite H.
Qed.

Lemma asConstructed_create (h : Host) : asConstructed (create h).
Proof.
  destruct (ExperimentalInlineChat h) eqn:E.
  - left. exact (proj1 (holds_create h E)).
  - right. now rewrite create_disabled.
Qed.

Lemma step_counter (lexer : string -> list Token) (w : World) (c : Call) :
  match c with callAcceptInput _ => False | _ => True end ->
  _accessibilityRequestId (this (step lexer w c)) = _accessibilityRequestId (this w).
Proof.
  intros Hc. open_world w.
  destruct c as [d| | | |run| | | | | |s|f1 f2 f3 f4]; try contradiction;
    unfold step.
  - unfold layout, bind, getValue_ExperimentalInlineChat, gets, widgetCall, rawWidget; cbn.
    destruct flag; cbn; [|reflexivity].
    destruct cw as [[dr [wd|]]|]; reflexivity.
  - unfold xtermReady, bind, getValue_ExperimentalInlineChat, gets; cbn.
    destruct flag; reflexivity.
  - unfold chatWidget, buildWidget, bind, gets; cbn.
    destruct cw as [[[|] [wd|]]|]; cbn; try reflexivity;
      destruct dom; cbn; try reflexivity; destruct ld; reflexivity.
  - unfold cancel; cbn. destruct cts; reflexivity.
  - unfold acceptCommand, widgetCall, rawWidget; cbn.
    destruct cw as [[dr [wd|]]|]; reflexivity.
  - unfold reveal, widgetCall, rawWidget; cbn.
    destruct cw as [[dr [wd|]]|]; reflexivity.
  - unfold rawWidget, onDidFocus, bind, gets; cbn.
    destruct cw as [[dr [wd|]]|]; cbn; try reflexivity. destruct det; reflexivity.
  - unfold rawWidget, onDidBlur, bind; cbn.
    destruct cw as [[dr [wd|]]|]; reflexivity.
  - unfold agentsChanged, bind, gets, ctxSet; cbn.
    destruct al; [|reflexivity]. destruct ag; [|reflexivity].
    destruct k2; reflexivity.
  - reflexivity.
  - reflexivity.
Qed.

Lemma constructed_asConstructed : asConstructed constructed.
Proof. apply asConstructed_create. Qed.

(** ** The constructor and the agent listener *)

(** X1.  The constructor, lines 61-78, with the setting on: the four [!]
    fields are assigned and the token is new and not cancelled.  When the
    chat agent of the terminal is registered already, the agent-registered
    key is set to true at once and no listener is registered.  When it is
    not, the key is left alone and one [onDidChangeAgents] listener is
    registered; the listener does nothing while the agent is still absent,
    and sets the key to true the first time it fires after the agent
    appeared. *)
Theorem agent_registration (lexer : string -> list Token) (h : Host) :
  ExperimentalInlineChat h = true ->
  let w := create h in
  initialized w
  /\ cancelled w = false
  /\ (terminalAgent h = true ->
      agentRegistered (contextKeys (host w)) = Some true
      /\ agentsListener (host w) = agentsListener h
      /\ trace w = [ctxSetBool chatAgentRegistered true])
  /\ (terminalAgent h = false ->
      agentRegistered (contextKeys (host w)) = agentRegistered (contextKeys h)
      /\ agentsListener (host w) = true
      /\ trace w = [onDidChangeAgents]
      /\ step lexer w fireDidChangeAgents = w
      /\ forall flag dom det,
           let w1 := history lexer w [hostChanges flag true dom det; fireDidChangeAgents] in
           agentRegistered (contextKeys (host w1)) = Some true
           /\ since w w1 = [ctxSetBool chatAgentRegistered true]).
Proof.
  intros Hflag. cbn zeta.
  split; [exact (proj1 (holds_create h Hflag))|].
  destruct h as [flag ag al dom det act ck uu tk]. cbn in Hflag. subst flag.
  split; [destruct ag; reflexivity|].
  split; cbn [terminalAgent]; intros ->.
  - repeat split.
  - repeat split.
Qed.

Lemma agent_registration_witness :
  ExperimentalInlineChat agentless = true
  /\ terminalAgent agentless = false
  /\ trace (create agentless) = [onDidChangeAgents]
  /\ agentRegistered (contextKeys (host (create agentless))) = None
  /\ agentRegistered
       (contextKeys
          (host (history Marked.lexer (create agentless)
                   [hostChanges true true true false; fireDidChangeAgents])))
     = Some true.
Proof.
  split; [reflexivity|]. split; [reflexivity|].
  destruct (@agent_registration Marked.lexer agentless eq_refl) as (_ & _ & _ & H).
  destruct (H eq_refl) as (H1 & _ & H3 & _ & H5).
  split; [exact H3|]. split; [exact H1|].
  exact (proj1 (H5 true true false)).
Defined.

(** X2.  A controller constructed while the setting was off stays without
    its four [!] fields whatever is called on it afterwards, also when the
    setting is turned on later and the widget is opened: nothing but the
    constructor assigns them.  The constructor itself called no collaborator.
    On such a controller [cancel()] throws a [TypeError], and [acceptInput()]
    announces the request to the accessibility service and then rejects with
    a [TypeError] at line 124, before anything else happened; the counter is
    still 0. *)
Theorem disabled_controller_never_recovers (lexer : string -> list Token) (h : Host)
  (cs : list Call) (run : AgentRun) :
  ExperimentalInlineChat h = false ->
  let w := history lexer (create h) cs in
  create h = {| this := blank; host := h; trace := [] |}
  /\ unassigned w
  /\ _accessibilityRequestId (this w) = 0%N
  /\ cancel w = (Throw (TypeError "_cancellationTokenSource"), w)
  /\ acceptInput lexer run w
     = (Throw (TypeError "_ctxHasActiveRequest"), emit acceptRequest w).
Proof.
  intros Hflag. cbn zeta.
  pose proof (create_disabled h Hflag) as Hc.
  assert (unassigned (create h)) as Hu by now rewrite Hc.
  assert (forall cs w, unassigned w ->
            unassigned (history lexer w cs)
            /\ _accessibilityRequestId (this (history lexer w cs))
               = _accessibilityRequestId (this w)) as Hh.
  { clear. induction cs as [|c cs IH]; intros w H; [now split|].
    cbn [history fold_left]. fold (history lexer (step lexer w c) cs).
    destruct (IH (step lexer w c) (unassigned_step lexer c H)) as (IH1 & IH2).
    split; [exact IH1|]. rewrite IH2.
    destruct c as [d| | | |run| | | | | |s|f1 f2 f3 f4];
      try (now rewrite step_counter by exact I).
    cbn [step]. unfold unassigned, assigned in H. injection H as H1 _ _ _.
    now rewrite acceptInput_unassigned by exact H1. }
  destruct (Hh cs (create h) Hu) as (H1 & H2).
  split; [exact Hc|]. split; [exact H1|]. split.
  - rewrite H2, Hc. reflexivity.
  - unfold unassigned, assigned in H1. injection H1 as K1 K2 K3 K4.
    split; [now apply cancel_unassigned | now apply acceptInput_unassigned].
Qed.

Lemma disabled_controller_never_recovers_witness :
  ExperimentalInlineChat (sampleHost false) = false
  /\ (let w := history Marked.lexer (create (sampleHost false))
                 [hostChanges true true true false; callXtermReady; callChatWidget] in
      ExperimentalInlineChat (host w) = true
      /\ rawWidget w = Some {| inputValue := "" |}
      /\ cancel w = (Throw (TypeError "_cancellationTokenSource"), w)
      /\ acceptInput Marked.lexer answering w
         = (Throw (TypeError "_ctxHasActiveRequest"), emit acceptRequest w)).
Proof.
  split; [reflexivity|]. cbn zeta.
  destruct (@disabled_controller_never_recovers Marked.lexer (sampleHost false)
              [hostChanges true true true false; callXtermReady; callChatWidget]
              answering eq_refl) as (_ & _ & _ & H1 & H2).
  split; [reflexivity|]. split; [reflexivity|]. split; [exact H1 | exact H2].
Defined.

Lemma step_agentRegistered (lexer : string -> list Token) (w : World) (c : Call) :
  asConstructed w ->
  agentRegistered (contextKeys (host w)) = Some true ->
  agentRegistered (contextKeys (host (step lexer w c))) = Some true.
Proof.
  intros Hw Hk.
  destruct c as [d| | | |run| | | | | |s|f1 f2 f3 f4]; cbn [step].
  - open_world w. cbn in Hk |- *.
    unfold layout, bind, getValue_ExperimentalInlineChat, gets, widgetCall, rawWidget; cbn.
    destruct flag; cbn; [|exact Hk].
    destruct cw as [[dr [wd|]]|]; exact Hk.
  - open_world w. cbn in Hk |- *.
    unfold xtermReady, bind, getValue_ExperimentalInlineChat, gets; cbn.
    destruct flag; exact Hk.
  - open_world w. cbn in Hk |- *.
    unfold chatWidget, buildWidget, bind, gets; cbn.
    destruct cw as [[[|] [wd|]]|]; cbn; try exact Hk;
      destruct dom; cbn; try exact Hk; destruct ld; exact Hk.
  - open_world w. cbn in Hk |- *. unfold cancel; cbn. destruct cts; exact Hk.
  - destruct Hw as [Hinit|Hu].
    + pose proof Hinit as (_ & _ & _ & src & Hsrc).
      destruct (acceptInput_spec lexer run Hinit Hsrc) as (w' & Hrun & E).
      rewrite Hrun. cbn [snd]. now rewrite (effect_registered E).
    + unfold unassigned, assigned in Hu. injection Hu as H1 _ _ _.
      now rewrite acceptInput_unassigned by exact H1.
  - open_world w. cbn in Hk |- *. unfold acceptCommand, widgetCall, rawWidget; cbn.
    destruct cw as [[dr [wd|]]|]; exact Hk.
  - open_world w. cbn in Hk |- *. unfold reveal, widgetCall, rawWidget; cbn.
    destruct cw as [[dr [wd|]]|]; exact Hk.
  - open_world w. cbn in Hk |- *. unfold rawWidget, onDidFocus, bind, gets; cbn.
    destruct cw as [[dr [wd|]]|]; cbn; try exact Hk. destruct det; exact Hk.
  - open_world w. cbn in Hk |- *. unfold rawWidget, onDidBlur, bind; cbn.
    destruct cw as [[dr [wd|]]|]; exact Hk.
  - open_world w. cbn in Hk |- *. unfold agentsChanged, bind, gets, ctxSet; cbn.
    destruct al; [|exact Hk]. destruct ag; [|exact Hk].
    destruct k2 as [[| |]|]; cbn; auto.
  - exact Hk.
  - exact Hk.
Qed.

(** X3.  The controller only ever writes [true] to the agent-registered
    context key (lines 72 and 76): once the key holds [true] it holds [true]
    after every later call, also after the agent went away again and the
    listener fired. *)
Theorem agent_key_is_never_cleared (lexer : string -> list Token) (h : Host)
  (before after : list Call) :
  let w := history lexer (create h) before in
  agentRegistered (contextKeys (host w)) = Some true ->
  agentRegistered (contextKeys (host (history lexer w after))) = Some true.
Proof.
  cbn zeta.
  pose proof (asConstructed_history lexer before (asConstructed_create h)) as Hw.
  revert Hw. generalize (history lexer (create h) before).
  induction after as [|c cs IH]; intros w Hw Hk; [exact Hk|].
  cbn [history fold_left]. apply IH.
  - now apply asConstructed_step.
  - now apply step_agentRegistered.
Qed.

Lemma agent_key_is_never_cleared_witness :
  agentRegistered
    (contextKeys
       (host (history Marked.lexer (create agentless)
                [hostChanges true true true false; fireDidChangeAgents])))
  = Some true
  /\ agentRegistered
       (contextKeys
          (host (history Marked.lexer
                   (history Marked.lexer (create agentless)
                      [hostChanges true true true false; fireDidChangeAgents])
                   [hostChanges true false true false; fireDidChangeAgents;
                    callAcceptInput failing])))
     = Some true.
Proof.
  split; [reflexivity|].
  exact (@agent_key_is_never_cleared Marked.lexer agentless
           [hostChanges true true true false; fireDidChangeAgents]
           [hostChanges true false true false; fireDidChangeAgents;
            callAcceptInput failing] eq_refl).
Defined.

(** ** The counter over the life of a controller *)

Lemma counter_step (lexer : string -> list Token) (w : World) (c : Call) :
  initialized w ->
  _accessibilityRequestId (this (step lexer w c))
  = (_accessibilityRequestId (this w) + N.of_nat (resolvedRuns [c]))%N.
Proof.
  intros Hinit.
  destruct c as [d| | | |run| | | | | |s|f1 f2 f3 f4];
    try (rewrite step_counter by exact I; cbn; now rewrite N.add_0_r).
  cbn [step resolvedRuns].
  pose proof Hinit as (_ & _ & _ & src & Hsrc).
  destruct (acceptInput_spec lexer run Hinit Hsrc) as (w' & Hrun & E).
  rewrite Hrun. cbn [snd]. rewrite (effect_counter E).
  destruct (settled run); cbn; [reflexivity | now rewrite N.add_0_r].
Qed.

Lemma resolvedRuns_cons (c : Call) (cs : list Call) :
  resolvedRuns (c :: cs) = resolvedRuns [c] + resolvedRuns cs.
Proof.
  destruct c as [d| | | |run| | | | | |s|f1 f2 f3 f4]; try reflexivity.
  cbn. destruct (settled run); reflexivity.
Qed.

Lemma counter_history (lexer : string -> list Token) (cs : list Call) :
  forall w, initialized w ->
    _accessibilityRequestId (this (history lexer w cs))
    = (_accessibilityRequestId (this w) + N.of_nat (resolvedRuns cs))%N.
Proof.
  induction cs as [|c cs IH]; intros w H.
  - cbn. now rewrite N.add_0_r.
  - cbn [history fold_left]. fold (history lexer (step lexer w c) cs).
    rewrite IH by now apply initialized_step.
    rewrite counter_step by exact H.
    rewrite (resolvedRuns_cons c cs). lia.
Qed.

(** X4.  On a controller constructed with the setting on, the
    accessibility-request counter is at every moment the number of
    [acceptInput] calls so far whose agent invocation resolved (cancelled or
    not): line 158 is the only place that writes it, whatever else was
    called in between. *)
Theorem counter_counts_resolved_requests (lexer : string -> list Token) (h : Host)
  (cs : list Call) :
  ExperimentalInlineChat h = true ->
  _accessibilityRequestId (this (history lexer (create h) cs))
  = N.of_nat (resolvedRuns cs).
Proof.
  intros Hflag.
  rewrite counter_history by exact (proj1 (holds_create h Hflag)).
  destruct h as [flag ag al dom det act ck uu tk]. cbn in Hflag. subst flag.
  destruct ag; reflexivity.
Qed.

Lemma counter_counts_resolved_requests_witness :
  ExperimentalInlineChat (sampleHost true) = true
  /\ _accessibilityRequestId
       (this (history Marked.lexer (create (sampleHost true))
                [callXtermReady; callChatWidget; callAcceptInput answering;
                 callAcceptInput failing; callCancel; callAcceptInput answering;
                 callReveal]))
     = 2%N.
Proof.
  split; [reflexivity|].
  exact (@counter_counts_resolved_requests Marked.lexer (sampleHost true)
           [callXtermReady; callChatWidget; callAcceptInput answering;
            callAcceptInput failing; callCancel; callAcceptInput answering;
            callReveal] eq_refl).
Defined.

(** ** The lazy widget *)

Lemma layouts_remembered (lexer : string -> list Token) (ds : list IDimension) :
  forall (w : World) (d : IDimension),
    ExperimentalInlineChat (host w) = true ->
    let w1 := history lexer w (map callLayout (ds ++ [d])) in
    host w1 = host w /\ _lastLayoutDimensions (this w1) = Some d.
Proof.
  assert (forall (w : World) (d : IDimension),
             ExperimentalInlineChat (host w) = true ->
             host (step lexer w (callLayout d)) = host w
             /\ _lastLayoutDimensions (this (step lexer w (callLayout d))) = Some d) as Hstep.
  { intros w d Hflag. open_world w. cbn in Hflag. subst flag.
    unfold step, layout, bind, getValue_ExperimentalInlineChat, gets, widgetCall, rawWidget; cbn.
    destruct cw as [[dr [wd|]]|]; split; reflexivity. }
  unfold history.
  induction ds as [|d0 ds IH]; intros w d Hflag; cbn zeta.
  - cbn. now apply Hstep.
  - cbn [app map fold_left].
    destruct (Hstep w d0 Hflag) as (Hh & _).
    destruct (IH (step lexer w (callLayout d0)) d) as (H1 & H2); [now rewrite Hh|].
    split; [now rewrite H1 | exact H2].
Qed.

(** X5.  [layout], lines 85-86, and the builder, lines 109-111, with the
    setting on and the DOM element there.  Of the dimensions passed to
    [layout] before the widget exists only the last is kept; the first read
    of [chatWidget] after [xtermReady] creates the widget and then lays it
    out once, with the width of that last dimension.  From then on every
    [layout] is forwarded to the widget with its own width, and remembered.
    If [layout] was never called, the widget is created and not laid out. *)
Theorem last_layout_is_applied_on_build (lexer : string -> list Token) (w : World)
  (ds : list IDimension) (d : IDimension) :
  ExperimentalInlineChat (host w) = true ->
  domElement (host w) = true ->
  let w1 := history lexer w (map callLayout (ds ++ [d]) ++ [callXtermReady]) in
  (exists w2,
      chatWidget w1 = (Ok (Some {| inputValue := "" |}), w2)
      /\ since w1 w2 = [createInstance; widget (Widget.layout (width d))]
      /\ rawWidget w2 = Some {| inputValue := "" |}
      /\ forall d',
           since w2 (snd (layout d' w2)) = [widget (Widget.layout (width d'))]
           /\ _lastLayoutDimensions (this (snd (layout d' w2))) = Some d')
  /\ (_lastLayoutDimensions (this w) = None ->
      since (snd (xtermReady w)) (snd (chatWidget (snd (xtermReady w))))
      = [createInstance]).
Proof.
  intros Hflag Hdom. cbn zeta. split.
  - rewrite history_app.
    destruct (layouts_remembered lexer ds w d Hflag) as (Hh & Hd).
    revert Hh Hd. generalize (history lexer w (map callLayout (ds ++ [d]))).
    intros w0 Hh Hd. rewrite <- Hh in Hflag, Hdom. clear Hh w.
    open_world w0. cbn in Hflag, Hdom, Hd. subst flag dom ld.
    eexists. split; [reflexivity|]. cbn -[since]. split.
    + apply since_app. cbn. now rewrite <- app_assoc.
    + split; [reflexivity|]. intros d'. split; [|reflexivity].
      apply since_app. reflexivity.
  - intros Hd. open_world w. cbn in Hflag, Hdom, Hd. subst.
    apply since_app. reflexivity.
Qed.

Lemma last_layout_is_applied_on_build_witness :
  ExperimentalInlineChat (host constructed) = true
  /\ domElement (host constructed) = true
  /\ exists w2,
       chatWidget (history Marked.lexer constructed
                     [callLayout narrow; callLayout wide; callXtermReady])
       = (Ok (Some {| inputValue := "" |}), w2)
       /\ since (history Marked.lexer constructed
                   [callLayout narrow; callLayout wide; callXtermReady]) w2
          = [createInstance; widget (Widget.layout 120)].
Proof.
  split; [reflexivity|]. split; [reflexivity|].
  destruct (@last_layout_is_applied_on_build Marked.lexer constructed [narrow] wide
              eq_refl eq_refl) as ((w2 & H1 & H2 & _) & _).
  exists w2. split; [exact H1 | exact H2].
Defined.

(** X6.  The getter [chatWidget], line 42.  Reading it a second time gives
    what the first read gave, the same widget or the same error, and changes
    nothing: the builder given to [Lazy] in [xtermReady] runs on the first
    read only, so the widget is created at most once.  Before [xtermReady]
    installed the [Lazy], the getter returns [undefined] and creates
    nothing. *)
Theorem chatWidget_is_built_once (w : World) :
  chatWidget (snd (chatWidget w)) = (fst (chatWidget w), snd (chatWidget w))
  /\ (_chatWidget (this w) = None -> chatWidget w = (Ok None, w)).
Proof.
  split.
  - open_world w. unfold chatWidget, buildWidget, bind, gets, modify, throw, ret; cbn.
    destruct cw as [[[|] [wd|]]|]; cbn; try reflexivity;
      destruct dom; cbn; try reflexivity; destruct ld; reflexivity.
  - intros H. unfold chatWidget, bind, gets. cbn. now rewrite H.
Qed.

(** X7.  The builder, lines 94-107, on a terminal without a DOM element
    (setting on): the first read of [chatWidget] throws the error of line
    106, after [createInstance] was called at line 94; no widget is there
    afterwards, so every optional-chained call is dropped.  The failure is
    kept: when the DOM element appears later the getter still throws, without
    creating anything; only a new [xtermReady] makes the next read build a
    widget. *)
Theorem missing_dom_is_fatal (lexer : string -> list Token) (w : World) :
  ExperimentalInlineChat (host w) = true ->
  domElement (host w) = false ->
  let w1 := snd (xtermReady w) in
  let w2 := snd (chatWidget w1) in
  chatWidget w1 = (Throw domError, w2)
  /\ since w1 w2 = [createInstance]
  /\ rawWidget w2 = None
  /\ (forall flag agent det,
         let w3 := step lexer w2 (hostChanges flag agent true det) in
         chatWidget w3 = (Throw domError, w3))
  /\ (forall agent det,
         let w3 := history lexer w2 [hostChanges true agent true det; callXtermReady] in
         exists w4, chatWidget w3 = (Ok (Some {| inputValue := "" |}), w4)).
Proof.
  intros Hflag Hdom. open_world w. cbn in Hflag, Hdom. subst flag dom.
  cbn -[since]. split; [reflexivity|]. split; [apply since_app; reflexivity|].
  split; [reflexivity|]. split; [reflexivity|].
  intros agent det'. destruct ld; eexists; reflexivity.
Qed.

Lemma missing_dom_is_fatal_witness :
  ExperimentalInlineChat (host (create headless)) = true
  /\ domElement (host (create headless)) = false
  /\ fst (chatWidget (snd (xtermReady (create headless)))) = Throw domError
  /\ since (snd (xtermReady (create headless)))
           (snd (chatWidget (snd (xtermReady (create headless)))))
     = [createInstance].
Proof.
  split; [reflexivity|]. split; [reflexivity|].
  destruct (@missing_dom_is_fatal Marked.lexer (create headless) eq_refl eq_refl)
    as (H1 & H2 & _).
  split; [now rewrite H1 | exact H2].
Defined.

(** X8.  [xtermReady], line 93, with the setting on, installs a new [Lazy]
    whatever the controller held: a widget that was built before is
    forgotten without being disposed (no collaborator is called), every
    optional-chained call finds no widget and is dropped, and the next read
    of [chatWidget] creates another widget, with an empty input box. *)
Theorem xtermReady_replaces_the_widget (w : World) (c : Widget.Call) :
  ExperimentalInlineChat (host w) = true ->
  let w1 := snd (xtermReady w) in
  trace w1 = trace w
  /\ rawWidget w1 = None
  /\ widgetCall c w1 = (Ok tt, w1)
  /\ (domElement (host w) = true ->
      exists w2 l,
        chatWidget w1 = (Ok (Some {| inputValue := "" |}), w2)
        /\ since w1 w2 = createInstance :: l).
Proof.
  intros Hflag. open_world w. cbn in Hflag. subst flag.
  cbn -[since]. split; [reflexivity|]. split; [reflexivity|]. split; [reflexivity|].
  intros ->. destruct ld; do 2 eexists; (split; [reflexivity|]);
    apply since_app; cbn; rewrite <- ?app_assoc; reflexivity.
Qed.

Lemma xtermReady_replaces_the_widget_witness :
  ExperimentalInlineChat (host typed) = true
  /\ rawWidget typed = Some {| inputValue := "list files" |}
  /\ rawWidget (snd (xtermReady typed)) = None
  /\ reveal (snd (xtermReady typed)) = (Ok tt, snd (xtermReady typed)).
Proof.
  split; [reflexivity|]. split; [reflexivity|].
  destruct (@xtermReady_replaces_the_widget typed Widget.reveal eq_refl)
    as (_ & H2 & H3 & _).
  split; [exact H2 | exact H3].
Defined.

Lemma request_without_widget (lexer : string -> list Token) (run : AgentRun)
  (w : World) (src : CancellationTokenSource) :
  rawWidget w = None ->
  filter touchesWidget
    (started w src ++ streamed run w src ++ finished lexer run w src)%list = [].
Proof.
  intros H. unfold started, streamed, finished, sink. rewrite H. cbn.
  destruct (settled run); [|reflexivity].
  destruct (finalFlag run src); [reflexivity|].
  destruct (finalOutcome lexer run src); reflexivity.
Qed.

Lemma step_without_widget (lexer : string -> list Token) (w : World) (c : Call) :
  asConstructed w ->
  rawWidget w = None ->
  readsChatWidget c = false ->
  rawWidget (step lexer w c) = None
  /\ filter touchesWidget (trace (step lexer w c)) = filter touchesWidget (trace w).
Proof.
  intros Hw Hraw Hc.
  destruct c as [d| | | |run| | | | | |s|f1 f2 f3 f4]; try discriminate; cbn [step].
  - open_world w. unfold rawWidget in Hraw. cbn in Hraw.
    unfold layout, bind, getValue_ExperimentalInlineChat, gets, widgetCall, rawWidget; cbn.
    destruct flag; cbn; [|now split].
    destruct cw as [[dr [wd|]]|]; try discriminate; now split.
  - open_world w. unfold rawWidget in Hraw. cbn in Hraw.
    unfold xtermReady, bind, getValue_ExperimentalInlineChat, gets, rawWidget; cbn.
    destruct flag; now split.
  - open_world w. unfold rawWidget in Hraw. cbn in Hraw.
    unfold cancel, rawWidget; cbn. destruct cts; now split.
  - destruct Hw as [Hinit|Hu].
    + pose proof Hinit as (_ & _ & _ & src & Hsrc).
      destruct (acceptInput_spec lexer run Hinit Hsrc) as (w' & Hrun & E).
      rewrite Hrun. cbn [snd]. split.
      * pose proof (effect_widget E) as Hwd. rewrite Hraw in Hwd.
        unfold rawWidget in *. now rewrite Hwd.
      * rewrite (effect_trace E), filter_app.
        now rewrite (request_without_widget lexer run w src Hraw), app_nil_r.
    + unfold unassigned, assigned in Hu. injection Hu as H1 _ _ _.
      rewrite acceptInput_unassigned by exact H1. cbn [snd]. split; [exact Hraw|].
      cbn. now rewrite filter_app, app_nil_r.
  - unfold acceptCommand, widgetCall. rewrite Hraw. now split.
  - unfold reveal, widgetCall. rewrite Hraw. now split.
  - rewrite Hraw. now split.
  - rewrite Hraw. now split.
  - open_world w. unfold rawWidget in Hraw. cbn in Hraw.
    unfold agentsChanged, bind, gets, ctxSet, rawWidget; cbn.
    destruct al; [|now split]. destruct ag; [|now split].
    destruct k2 as [[| |]|]; cbn; (split; [exact Hraw|]);
      rewrite ?filter_app; cbn; now rewrite ?app_nil_r.
  - open_world w. unfold rawWidget in *. cbn in *.
    destruct cw as [[dr [wd|]]|]; try discriminate; now split.
  - now split.
Qed.

(** X9.  Only a read of [chatWidget] creates the widget.  While there is no
    widget, whatever else is called ([layout], [xtermReady], [cancel],
    [acceptInput], [acceptCommand], [reveal], the listeners), in any order
    and number, no widget is created and no call is made on one: the
    optional-chained calls of lines 86, 135, 143-147, 154, 164-170, 174 and
    178 are all dropped, and there is still no widget afterwards. *)
Theorem nothing_reaches_the_widget_before_it_is_read (lexer : string -> list Token)
  (cs : list Call) (w : World) :
  asConstructed w ->
  rawWidget w = None ->
  existsb readsChatWidget cs = false ->
  rawWidget (history lexer w cs) = None
  /\ filter touchesWidget (trace (history lexer w cs)) = filter touchesWidget (trace w).
Proof.
  revert w. induction cs as [|c cs IH]; intros w Hw Hraw Hcs; [now split|].
  cbn in Hcs. apply orb_false_iff in Hcs as [Hc Hcs].
  destruct (@step_without_widget lexer w c Hw Hraw Hc) as (H1 & H2).
  cbn [history fold_left]. fold (history lexer (step lexer w c) cs).
  destruct (IH (step lexer w c) (asConstructed_step lexer c Hw) H1 Hcs) as (G1 & G2).
  split; [exact G1 | now rewrite G2].
Qed.

Lemma nothing_reaches_the_widget_before_it_is_read_witness :
  asConstructed constructed
  /\ rawWidget constructed = None
  /\ filter touchesWidget
       (trace (history Marked.lexer constructed
                 [callLayout narrow; callXtermReady; callAcceptInput answering;
                  callReveal; callAcceptCommand; callCancel; callLayout wide]))
     = [].
Proof.
  split; [exact constructed_asConstructed|]. split; [reflexivity|].
  exact (proj2 (@nothing_reaches_the_widget_before_it_is_read Marked.lexer
                  [callLayout narrow; callXtermReady; callAcceptInput answering;
                   callReveal; callAcceptCommand; callCancel; callLayout wide]
                  constructed constructed_asConstructed eq_refl eq_refl)).
Defined.

(** ** Focus *)

(** X10.  The focus tracker callbacks, lines 95-104, and the static
    [activeChatWidget].  On focus the static field becomes this controller,
    and the terminal service is told to make the instance active unless the
    instance is detached; on blur the static field is cleared and the scroll
    bar visibility of the instance is reset.  Neither touches a field of the
    controller or anything else of the collaborators.  Nothing but these two
    callbacks writes the static field: it is as it was after [layout],
    [xtermReady], a read of [chatWidget], [cancel], [acceptInput],
    [acceptCommand] and [reveal], so a widget that [xtermReady] replaced
    while it had the focus is still the active one. *)
Theorem focus_then_blur (lexer : string -> list Token) (w : World) :
  let w1 := snd (onDidFocus w) in
  let w2 := snd (onDidBlur w1) in
  activeChatWidget (host w1) = true
  /\ since w w1 = (if detached (host w) then [] else [setActiveInstance])
  /\ activeChatWidget (host w2) = false
  /\ since w1 w2 = [resetScrollbarVisibility]
  /\ this w2 = this w
  /\ with_activeChatWidget (activeChatWidget (host w)) (host w2) = host w
  /\ (asConstructed w ->
      forall c,
        match c with
        | fireDidFocus | fireDidBlur => True
        | _ => activeChatWidget (host (step lexer w c)) = activeChatWidget (host w)
        end).
Proof.
  cbn zeta. repeat (split; [open_world w; cbn -[since]; destruct det;
                            try reflexivity; apply since_app; cbn;
                            rewrite ?app_nil_r; reflexivity|]).
  intros Hw c.
  destruct c as [d| | | |run| | | | | |s|f1 f2 f3 f4]; try exact I; cbn [step].
  - open_world w.
    unfold layout, bind, getValue_ExperimentalInlineChat, gets, widgetCall, rawWidget; cbn.
    destruct flag; cbn; [|reflexivity].
    destruct cw as [[dr [wd|]]|]; reflexivity.
  - open_world w.
    unfold xtermReady, bind, getValue_ExperimentalInlineChat, gets; cbn.
    destruct flag; reflexivity.
  - open_world w.
    unfold chatWidget, buildWidget, bind, gets; cbn.
    destruct cw as [[[|] [wd|]]|]; cbn; try reflexivity;
      destruct dom; cbn; try reflexivity; destruct ld; reflexivity.
  - open_world w. unfold cancel; cbn. destruct cts; reflexivity.
  - destruct Hw as [Hinit|Hu].
    + pose proof Hinit as (_ & _ & _ & src & Hsrc).
      destruct (acceptInput_spec lexer run Hinit Hsrc) as (w' & Hrun & E).
      rewrite Hrun. cbn [snd].
      pose proof (effect_host E) as Hh.
      destruct (host w'), (host w). cbn in Hh |- *. now injection Hh.
    + unfold unassigned, assigned in Hu. injection Hu as H1 _ _ _.
      now rewrite acceptInput_unassigned by exact H1.
  - open_world w. unfold acceptCommand, widgetCall, rawWidget; cbn.
    destruct cw as [[dr [wd|]]|]; reflexivity.
  - open_world w. unfold reveal, widgetCall, rawWidget; cbn.
    destruct cw as [[dr [wd|]]|]; reflexivity.
  - open_world w. unfold agentsChanged, bind, gets, ctxSet; cbn.
    destruct al; [|reflexivity]. destruct ag; [|reflexivity].
    destruct k2 as [[| |]|]; reflexivity.
  - reflexivity.
  - reflexivity.
Qed.

Lemma forallb_sink (f : Event -> bool) (w : World) (calls : list Widget.Call) :
  forallb (fun c => f (widget c)) calls = true -> forallb f (sink w calls) = true.
Proof.
  unfold sink. destruct (rawWidget w); [|reflexivity].
  induction calls as [|c calls IH]; cbn; [reflexivity|].
  intros H. apply andb_prop in H as [H1 H2]. now rewrite H1, IH.
Qed.

Lemma request_events (lexer : string -> list Token) (run : AgentRun) (w : World)
  (src : CancellationTokenSource) :
  forallb requestEvent
    (started w src ++ streamed run w src ++ finished lexer run w src)%list = true.
Proof.
  rewrite !forallb_app. apply andb_true_intro. split; [|apply andb_true_intro; split].
  - unfold started. rewrite !forallb_app, forallb_sink; reflexivity.
  - unfold streamed. apply forallb_sink.
    induction (accepted (isCancellationRequested src) (pending run)); cbn; auto.
  - unfold finished, rendering.
    destruct (settled run); [|cbn; apply forallb_sink; reflexivity].
    destruct (finalFlag run src); [reflexivity|].
    rewrite !forallb_app. cbn [forallb requestEvent]. cbn [andb].
    rewrite !forallb_sink;
      [destruct (finalOutcome lexer run src); reflexivity | reflexivity |].
    destruct (finalOutcome lexer run src); reflexivity.
Qed.

Lemma filter_disjoint (f g : Event -> bool) (l : list Event) :
  forallb g l = true -> (forall e, g e = true -> f e = false) -> filter f l = [].
Proof.
  intros Hl Hd. induction l as [|e l IH]; [reflexivity|].
  cbn in Hl |- *. apply andb_prop in Hl as [He Hl].
  rewrite (Hd e He). now apply IH.
Qed.

Lemma step_detached (lexer : string -> list Token) (w : World) (c : Call) :
  asConstructed w ->
  detached (host w) = true ->
  staysDetached c = true ->
  detached (host (step lexer w c)) = true
  /\ filter isSetActiveInstance (trace (step lexer w c))
     = filter isSetActiveInstance (trace w).
Proof.
  intros Hw Hdet Hc.
  destruct c as [d| | | |run| | | | | |s|f1 f2 f3 f4]; cbn [step].
  - open_world w. cbn in Hdet. subst det.
    unfold layout, bind, getValue_ExperimentalInlineChat, gets, widgetCall, rawWidget; cbn.
    destruct flag; cbn; [|now split].
    destruct cw as [[dr [wd|]]|]; cbn; (split; [reflexivity|]);
      rewrite ?filter_app; cbn; now rewrite ?app_nil_r.
  - open_world w. cbn in Hdet. subst det.
    unfold xtermReady, bind, getValue_ExperimentalInlineChat, gets; cbn.
    destruct flag; now split.
  - open_world w. cbn in Hdet. subst det.
    unfold chatWidget, buildWidget, bind, gets; cbn.
    destruct cw as [[[|] [wd|]]|]; cbn; try (now split);
      destruct dom; cbn; try destruct ld; cbn; (split; [reflexivity|]);
      rewrite ?filter_app; cbn; now rewrite ?app_nil_r.
  - open_world w. cbn in Hdet. subst det. unfold cancel; cbn. destruct cts; now split.
  - destruct Hw as [Hinit|Hu].
    + pose proof Hinit as (_ & _ & _ & src & Hsrc).
      destruct (acceptInput_spec lexer run Hinit Hsrc) as (w' & Hrun & E).
      rewrite Hrun. cbn [snd]. split.
      * pose proof (effect_host E) as Hh. rewrite <- Hh in Hdet.
        destruct (host w'). exact Hdet.
      * rewrite (effect_trace E), filter_app.
        rewrite (@filter_disjoint isSetActiveInstance requestEvent _
                   (request_events lexer run w src)); [now rewrite app_nil_r|].
        intros [] He; try reflexivity; discriminate.
    + unfold unassigned, assigned in Hu. injection Hu as H1 _ _ _.
      rewrite acceptInput_unassigned by exact H1. cbn [snd]. split; [exact Hdet|].
      cbn. now rewrite filter_app, app_nil_r.
  - unfold acceptCommand, widgetCall.
    destruct (rawWidget w); cbn; (split; [exact Hdet|]);
      rewrite ?filter_app; cbn; now rewrite ?app_nil_r.
  - unfold reveal, widgetCall.
    destruct (rawWidget w); cbn; (split; [exact Hdet|]);
      rewrite ?filter_app; cbn; now rewrite ?app_nil_r.
  - destruct (rawWidget w); [|now split].
    unfold onDidFocus, bind, gets, modify; cbn. rewrite Hdet. now split.
  - destruct (rawWidget w); [|now split].
    unfold onDidBlur, bind, modify; cbn. split; [exact Hdet|].
    now rewrite filter_app, app_nil_r.
  - open_world w. cbn in Hdet. subst det.
    unfold agentsChanged, bind, gets, ctxSet; cbn.
    destruct al; [|now split]. destruct ag; [|now split].
    destruct k2 as [[| |]|]; cbn; (split; [reflexivity|]);
      rewrite ?filter_app; cbn; now rewrite ?app_nil_r.
  - now split.
  - cbn in Hc. subst f4. now split.
Qed.

(** X11.  For a detached terminal instance the controller never asks the
    terminal service to make the instance active (line 97 guards the only
    call, line 98): as long as the instance stays detached, no sequence of
    calls and focus events adds a [setActiveInstance] to what the
    collaborators have seen. *)
Theorem detached_terminal_is_never_activated (lexer : string -> list Token)
  (cs : list Call) (w : World) :
  asConstructed w ->
  detached (host w) = true ->
  forallb staysDetached cs = true ->
  filter isSetActiveInstance (trace (history lexer w cs))
  = filter isSetActiveInstance (trace w).
Proof.
  revert w. induction cs as [|c cs IH]; intros w Hw Hdet Hcs; [reflexivity|].
  cbn in Hcs. apply andb_prop in Hcs as [Hc Hcs].
  destruct (@step_detached lexer w c Hw Hdet Hc) as (H1 & H2).
  cbn [history fold_left]. fold (history lexer (step lexer w c) cs).
  rewrite (IH (step lexer w c) (asConstructed_step lexer c Hw) H1 Hcs). exact H2.
Qed.

Lemma detached_terminal_is_never_activated_witness :
  asConstructed (create floating)
  /\ detached (host (create floating)) = true
  /\ activeChatWidget
       (host (history Marked.lexer (create floating)
                [callXtermReady; callChatWidget; fireDidFocus; fireDidBlur;
                 fireDidFocus; callAcceptInput answering]))
     = true
  /\ filter isSetActiveInstance
       (trace (history Marked.lexer (create floating)
                 [callXtermReady; callChatWidget; fireDidFocus; fireDidBlur;
                  fireDidFocus; callAcceptInput answering]))
     = [].
Proof.
  split; [exact (asConstructed_create floating)|]. split; [reflexivity|].
  split; [reflexivity|].
  exact (@detached_terminal_is_never_activated Marked.lexer
           [callXtermReady; callChatWidget; fireDidFocus; fireDidBlur;
            fireDidFocus; callAcceptInput answering]
           (create floating) (asConstructed_create floating) eq_refl eq_refl).
Defined.

(** ** The request and its answer *)

Lemma filter_invoke_sink (w : World) (calls : list Widget.Call) :
  filter isInvokeAgent (sink w calls) = [].
Proof.
  unfold sink. destruct (rawWidget w); [|reflexivity].
  induction calls as [|c calls IH]; [reflexivity | exact IH].
Qed.

Lemma filter_invoke_finished (lexer : string -> list Token) (run : AgentRun)
  (w : World) (src : CancellationTokenSource) :
  filter isInvokeAgent (finished lexer run w src) = [].
Proof.
  unfold finished.
  destruct (settled run); [|cbn; apply filter_invoke_sink].
  destruct (finalFlag run src); [reflexivity|].
  rewrite !filter_app, filter_invoke_sink. cbn. rewrite filter_invoke_sink.
  destruct (finalOutcome lexer run src); reflexivity.
Qed.

Lemma inputText_cleared (w w' : World) :
  _chatWidget (this w') = match rawWidget w with
                          | Some _ => option_map clearInput (_chatWidget (this w))
                          | None => _chatWidget (this w)
                          end ->
  inputText w' = "".
Proof.
  unfold inputText, rawWidget. intros ->.
  destruct (_chatWidget (this w)) as [[dr [wd|]]|]; reflexivity.
Qed.

(** X12.  The request of lines 137-150 (controller constructed with the
    setting on).  [acceptInput] invokes the agent exactly once, as agent
    [terminal], with the controller's token; the message of the request, and
    that of its [variables2], is the text of the input box, or the empty
    string when the box is empty or no widget is there; both variable lists
    are empty.  The input box is empty afterwards, whatever the outcome.
    When the answer is rendered as a message, [renderMessage] is given the
    [requestId] of that same request and the value the counter has after the
    call. *)
Theorem agent_is_invoked_once_with_the_input (lexer : string -> list Token)
  (run : AgentRun) (w : World) (src : CancellationTokenSource) :
  initialized w ->
  _cancellationTokenSource (this w) = Some src ->
  let w' := snd (acceptInput lexer run w) in
  exists r,
    filter isInvokeAgent (since w w') = [invokeAgent "terminal" r src]
    /\ message r = inputText w
    /\ variables2_message r = inputText w
    /\ variables r = []
    /\ variables2_variables r = []
    /\ inputText w' = ""
    /\ (attached w ->
        forall m buf,
          fst (acceptInput lexer run w)
          = Ok {| returnedAt := atEnd (Message m); buffer := buf |} ->
          renders (since w w')
          = [widget (Widget.renderMessage m (_accessibilityRequestId (this w'))
                       (requestId r))]).
Proof.
  intros Hinit Hsrc. cbn zeta.
  destruct (acceptInput_spec lexer run Hinit Hsrc) as (w' & Hrun & E).
  rewrite Hrun. cbn [fst snd].
  rewrite (since_app w w' _ (effect_trace E)).
  exists (requestProps w).
  split; [|split; [reflexivity|split; [reflexivity|split; [reflexivity|
          split; [reflexivity|split]]]]].
  - rewrite !filter_app, filter_invoke_finished.
    unfold started, streamed. rewrite !filter_app, !filter_invoke_sink. reflexivity.
  - exact (inputText_cleared w w' (effect_widget E)).
  - intros (wd & Hwd) m buf Hok. injection Hok as Hret _.
    rewrite !renders_app, renders_started, renders_streamed.
    rewrite (effect_counter E).
    unfold finalReturn in Hret. unfold finished, rendering, sink.
    destruct (settled run); [|discriminate].
    destruct (finalFlag run src); [discriminate|].
    injection Hret as Hret. rewrite Hret, Hwd. reflexivity.
Qed.

Lemma agent_is_invoked_once_with_the_input_witness :
  initialized typed
  /\ _cancellationTokenSource (this typed)
     = Some {| tokenId := 0; isCancellationRequested := false |}
  /\ inputText typed = "list files"
  /\ exists r,
       filter isInvokeAgent (since typed (snd (acceptInput Marked.lexer answering typed)))
       = [invokeAgent "terminal" r {| tokenId := 0; isCancellationRequested := false |}]
       /\ message r = "list files"
       /\ inputText (snd (acceptInput Marked.lexer answering typed)) = "".
Proof.
  split; [exact typed_initialized|]. split; [reflexivity|]. split; [reflexivity|].
  destruct (@agent_is_invoked_once_with_the_input Marked.lexer answering typed
              {| tokenId := 0; isCancellationRequested := false |}
              typed_initialized eq_refl) as (r & H1 & H2 & _ & _ & _ & H6 & _).
  exists r. split; [exact H1|]. split; [exact H2 | exact H6].
Defined.

Lemma accepted_until_cancel (before : list IChatProgress) (rest : list Pending) :
  accepted false (map onProgress before ++ cancelCalled :: rest) = before.
Proof.
  induction before as [|p before IH]; cbn.
  - apply accepted_cancelled.
  - now rewrite IH.
Qed.

Lemma cancelledAfter_until_cancel (before : list IChatProgress) (rest : list Pending) :
  cancelledAfter false (map onProgress before ++ cancelCalled :: rest) = true.
Proof.
  apply cancelledAfter_cancelCalled. apply in_or_app. right. now left.
Qed.

(** X13.  The progress callback, lines 127-136, when [cancel()] arrives in
    the middle of a request that started with the token not cancelled: the
    chunks delivered before the cancellation are buffered and forwarded as
    usual; every chunk delivered after it, of whatever kind, is neither
    appended to the buffer nor forwarded to [updateProgress].  The buffer
    [acceptInput] ends with is the text of the chunks before the
    cancellation, and the token is left cancelled. *)
Theorem chunks_after_cancel_are_dropped (lexer : string -> list Token)
  (before : list IChatProgress) (rest : list Pending) (s : Settled) (w : World) :
  initialized w ->
  cancelled w = false ->
  let run := {| pending := (map onProgress before ++ cancelCalled :: rest)%list;
                settled := s |} in
  let w' := snd (acceptInput lexer run w) in
  fst (acceptInput lexer run w)
  = Ok {| returnedAt := match s with
                        | resolved => atCancellationCheck
                        | rejected => inCatch
                        end;
          buffer := text before |}
  /\ (attached w -> progressUpdates (since w w') = before)
  /\ (rawWidget w = None -> progressUpdates (since w w') = [])
  /\ cancelled w' = true.
Proof.
  intros Hinit Hc. cbn zeta.
  set (run := {| pending := (map onProgress before ++ cancelCalled :: rest)%list;
                 settled := s |}).
  pose proof Hinit as (_ & _ & _ & src & Hsrc).
  destruct (acceptInput_spec lexer run Hinit Hsrc) as (w' & Hrun & E).
  rewrite Hrun. cbn [fst snd].
  unfold cancelled in Hc. rewrite Hsrc in Hc.
  assert (finalFlag run src = true) as Hf.
  { unfold finalFlag. cbn [pending run]. rewrite Hc. apply cancelledAfter_until_cancel. }
  assert (accepted (isCancellationRequested src) (pending run) = before) as Ha.
  { cbn [pending run]. rewrite Hc. apply accepted_until_cancel. }
  rewrite (since_app w w' _ (effect_trace E)).
  rewrite !progressUpdates_app, progressUpdates_started.
  rewrite (progressUpdates_finished_cancelled lexer run w src Hf), app_nil_r.
  split; [|split; [|split]].
  - unfold finalReturn, finalBuffer. rewrite Hf, Ha. cbn [settled run].
    destruct s; reflexivity.
  - intros (wd & Hwd). rewrite (progressUpdates_streamed _ _ _ Hwd). exact Ha.
  - intros Hwd. unfold streamed, sink. now rewrite Hwd.
  - unfold cancelled. rewrite (effect_token E). exact Hf.
Qed.

Lemma chunks_after_cancel_are_dropped_witness :
  initialized typed /\ cancelled typed = false /\ attached typed
  /\ fst (acceptInput Marked.lexer interrupted typed)
     = Ok {| returnedAt := atCancellationCheck; buffer := "```echo " |}
  /\ progressUpdates (since typed (snd (acceptInput Marked.lexer interrupted typed)))
     = [chunk "```echo "].
Proof.
  split; [exact typed_initialized|]. split; [reflexivity|].
  split; [exact typed_attached|].
  destruct (@chunks_after_cancel_are_dropped Marked.lexer [chunk "```echo "]
              [onProgress (chunk "hi```")] resolved typed typed_initialized eq_refl)
    as (H1 & H2 & _).
  split; [exact H1 | exact (H2 typed_attached)].
Defined.

(** X14.  Lines 157 and 162-166, for any lexer and any behaviour of the
    agent.  A text that [acceptInput] renders as a terminal command is never
    empty and never contains a fence marker: it is the raw text of the first
    code token of the buffer with every fence marker removed.  A text that it
    renders as a message is the whole buffer, unchanged, fence markers
    included. *)
Theorem rendered_command_is_stripped (lexer : string -> list Token) (run : AgentRun)
  (w : World) (c : Completion) :
  initialized w ->
  fst (acceptInput lexer run w) = Ok c ->
  match returnedAt c with
  | atEnd (Command s) =>
      s <> ""
      /\ JS.includes fence s = false
      /\ exists tok rest,
           filter isCode (lexer (buffer c)) = tok :: rest
           /\ s = JS.replaceAll fence "" (raw tok)
  | atEnd (Message m) => m = buffer c
  | _ => True
  end.
Proof.
  intros Hinit Hc.
  pose proof Hinit as (_ & _ & _ & src & Hsrc).
  destruct (acceptInput_spec lexer run Hinit Hsrc) as (w' & Hrun & E).
  rewrite Hrun in Hc. cbn [fst] in Hc. injection Hc as <-.
  cbn [returnedAt buffer]. unfold finalReturn.
  destruct (settled run); [|exact I].
  destruct (finalFlag run src); [exact I|].
  unfold finalOutcome, outcomeOf, codeBlock. fold isCode.
  destruct (filter isCode (lexer (finalBuffer run src))) as [|tok rest] eqn:Ef;
    [reflexivity|].
  destruct (JS.replaceAll fence "" (raw tok)) as [|a s] eqn:Es; [reflexivity|].
  split; [discriminate|]. split.
  - rewrite <- Es. apply replaceAll_no_fence.
  - now exists tok, rest.
Qed.

Lemma rendered_command_is_stripped_witness :
  initialized typed
  /\ fst (acceptInput Marked.lexer answering typed)
     = Ok {| returnedAt := atEnd (Command "echo hi"); buffer := "```echo hi```" |}
  /\ "echo hi" <> ""
  /\ JS.includes fence "echo hi" = false.
Proof.
  split; [exact typed_initialized|]. split; [reflexivity|].
  destruct (@rendered_command_is_stripped Marked.lexer answering typed
              {| returnedAt := atEnd (Command "echo hi"); buffer := "```echo hi```" |}
              typed_initialized eq_refl) as (H1 & H2 & _).
  split; [exact H1 | exact H2].
Defined.

(** X15.  The end of [acceptInput], lines 162-170, when the request
    completed and the widget is there: the render call comes first, then (on
    the message branch only) the last-response-type key is set, then the
    active-request key is set to false, and the progress-clear
    [updateProgress()] is the last thing the method does.  Nothing before the
    render call renders, clears the progress display or resets the
    active-request key: the key holds [true] all the time the agent is
    streaming. *)
Theorem completed_request_ends_with_reset (lexer : string -> list Token)
  (run : AgentRun) (w : World) (o : Outcome) (buf : string) :
  initialized w ->
  attached w ->
  fst (acceptInput lexer run w) = Ok {| returnedAt := atEnd o; buffer := buf |} ->
  let w' := snd (acceptInput lexer run w) in
  exists before,
    since w w'
    = (before
       ++ [widget (renderCall o (_accessibilityRequestId (this w')) (uuid (uuids (host w))))]
       ++ match o with
          | Command _ => []
          | Message _ => [ctxSetResponseType OnlyMessages]
          end
       ++ [ctxSetBool chatRequestActive false; widget (Widget.updateProgress None)])%list
    /\ renders before = []
    /\ filter isProgressClear before = []
    /\ ~ In (ctxSetBool chatRequestActive false) before.
Proof.
  intros Hinit (wd & Hwd) Hok. cbn zeta.
  pose proof Hinit as (_ & _ & _ & src & Hsrc).
  destruct (acceptInput_spec lexer run Hinit Hsrc) as (w' & Hrun & E).
  rewrite Hrun in Hok |- *. cbn [fst snd] in *. injection Hok as Hret _.
  rewrite (since_app w w' _ (effect_trace E)), (effect_counter E).
  unfold finalReturn in Hret. unfold finished, rendering, sink.
  destruct (settled run); [|discriminate].
  destruct (finalFlag run src); [discriminate|].
  injection Hret as Hret. rewrite Hret, Hwd.
  exists (started w src ++ streamed run w src)%list.
  split; [|split; [|split]].
  - cbn [map]. rewrite <- !app_assoc. reflexivity.
  - now rewrite renders_app, renders_started, renders_streamed.
  - rewrite filter_app. unfold started, streamed, sink. rewrite Hwd. cbn.
    induction (accepted (isCancellationRequested src) (pending run)); cbn; auto.
  - intros Hin. apply in_app_or in Hin as [Hin|Hin].
    + unfold started, sink in Hin. rewrite Hwd in Hin. cbn in Hin.
      repeat (destruct Hin as [Hin|Hin]; [discriminate|]). exact Hin.
    + unfold streamed, sink in Hin. rewrite Hwd in Hin.
      rewrite map_map in Hin. apply in_map_iff in Hin as (p & Hp & _). discriminate.
Qed.

Lemma completed_request_ends_with_reset_witness :
  initialized typed /\ attached typed
  /\ fst (acceptInput Marked.lexer (streams [chunk "hello"] resolved) typed)
     = Ok {| returnedAt := atEnd (Message "hello"); buffer := "hello" |}
  /\ exists before,
       since typed (snd (acceptInput Marked.lexer (streams [chunk "hello"] resolved) typed))
       = (before
          ++ [widget (Widget.renderMessage "hello" 1 (uuid 0));
              ctxSetResponseType OnlyMessages;
              ctxSetBool chatRequestActive false;
              widget (Widget.updateProgress None)])%list.
Proof.
  split; [exact typed_initialized|]. split; [exact typed_attached|].
  split; [reflexivity|].
  destruct (@completed_request_ends_with_reset Marked.lexer
              (streams [chunk "hello"] resolved) typed (Message "hello") "hello"
              typed_initialized typed_attached eq_refl) as (before & H & _).
  exists before. exact H.
Defined.

(** X16.  What [acceptInput] leaves alone (controller constructed with the
    setting on).  Every collaborator call it makes is one of: the
    accessibility announcement, a write of the active-request key, the write
    of [OnlyMessages] to the last-response-type key, the agent invocation,
    and the widget calls [input], [setValue], [updateProgress],
    [renderTerminalCommand] and [renderMessage]; it never lays out, reveals,
    disposes or creates a widget, never accepts a command and never writes
    the agent-registered key.  It changes neither the remembered layout
    dimensions, nor the context key fields, nor the identity of the
    cancellation token, nor the static [activeChatWidget]; and without a
    widget it leaves the [Lazy] as it was. *)
Theorem acceptInput_frame (lexer : string -> list Token) (run : AgentRun) (w : World) :
  initialized w ->
  let w' := snd (acceptInput lexer run w) in
  forallb requestEvent (since w w') = true
  /\ _lastLayoutDimensions (this w') = _lastLayoutDimensions (this w)
  /\ (_ctxHasActiveRequest (this w'), _ctxHasTerminalAgent (this w'),
      _ctxLastResponseType (this w'))
     = (_ctxHasActiveRequest (this w), _ctxHasTerminalAgent (this w),
        _ctxLastResponseType (this w))
  /\ option_map tokenId (_cancellationTokenSource (this w'))
     = option_map tokenId (_cancellationTokenSource (this w))
  /\ agentRegistered (contextKeys (host w')) = agentRegistered (contextKeys (host w))
  /\ (ExperimentalInlineChat (host w'), terminalAgent (host w'), agentsListener (host w'),
      domElement (host w'), detached (host w'), activeChatWidget (host w'),
      tokens (host w'))
     = (ExperimentalInlineChat (host w), terminalAgent (host w), agentsListener (host w),
        domElement (host w), detached (host w), activeChatWidget (host w),
        tokens (host w))
  /\ (rawWidget w = None -> _chatWidget (this w') = _chatWidget (this w)).
Proof.
  intros Hinit. cbn zeta.
  pose proof Hinit as (_ & _ & _ & src & Hsrc).
  destruct (acceptInput_spec lexer run Hinit Hsrc) as (w' & Hrun & E).
  rewrite Hrun. cbn [snd].
  split; [|split; [|split; [|split; [|split; [|split]]]]].
  - rewrite (since_app w w' _ (effect_trace E)). apply request_events.
  - exact (effect_layout E).
  - destruct (effect_keys E) as (K1 & K2 & K3). now rewrite K1, K2, K3.
  - now rewrite (effect_token E), Hsrc.
  - exact (effect_registered E).
  - pose proof (effect_host E) as Hh.
    destruct (host w'), (host w). cbn in Hh |- *. now injection Hh as -> -> -> -> -> -> ->.
  - intros Hraw. pose proof (effect_widget E) as Hwd. now rewrite Hraw in Hwd.
Qed.

Lemma acceptInput_frame_witness :
  initialized typed
  /\ forallb requestEvent (since typed (snd (acceptInput Marked.lexer answering typed)))
     = true
  /\ _lastLayoutDimensions (this (snd (acceptInput Marked.lexer answering typed)))
     = _lastLayoutDimensions (this typed).
Proof.
  split; [exact typed_initialized|].
  destruct (@acceptInput_frame Marked.lexer answering typed typed_initialized)
    as (H1 & H2 & _).
  split; [exact H1 | exact H2].
Defined.
